(** * PharmaChain ledger: a shallow embedding of [app.py]

    The development follows the source file top to bottom: the hash-chained
    ledger kept in [ledger.json] ([init_ledger], [add_block], [api_ledger]),
    the body of the telemetry loop, which raises ALERT blocks
    ([simulation_loop]), and the start/stop controller of the simulation
    thread ([api_simulate_start], [api_simulate_stop]).

    Library calls of the source are modelled as follows.
    - [hashlib.sha256(..).hexdigest()] and [float.__repr__] are the two
      fields of the class [Runtime]; every definition and theorem about the
      program is generic in them.  An executable instance (FIPS 180-4
      SHA-256 and a shortest round-trip float printer) is given for
      evaluation on concrete inputs.
    - [time.time()], [random.*] and [datetime.utcnow()] are inputs of the
      functions that call them.
    - A Python [str] is a [string] whose characters are code points below
      256; the texts that get hashed are ASCII ([json.dumps] escapes every
      other character), so [.encode()] is the identity on them. *)

From Stdlib Require Import ZArith List String Ascii Bool Lia Permutation.
From Stdlib Require Import DecimalString PrimFloat SpecFloat FloatOps.
Import ListNotations.
Open Scope string_scope.
Open Scope Z_scope.

(** ** Small text helpers *)

Definition hex_digit (d : Z) : ascii :=
  ascii_of_N (Z.to_N (if d <? 10 then 48 + d else 87 + d)).

(** [n] as [k] lowercase hexadecimal digits, most significant first. *)
Fixpoint hex_fixed (k : nat) (n : Z) : string :=
  match k with
  | O => EmptyString
  | S k' => hex_fixed k' (n / 16) ++ String (hex_digit (n mod 16)) EmptyString
  end.

(** [str(n)] for a Python [int]. *)
Definition str_int (n : Z) : string := NilZero.string_of_int (Z.to_int n).

(** [s * k] on Python strings. *)
Fixpoint str_mul (s : string) (k : nat) : string :=
  match k with
  | O => EmptyString
  | S k' => s ++ str_mul s k'
  end.

Definition zeros (k : nat) : string := str_mul "0" k.

Fixpoint take (k : nat) (s : string) : string :=
  match k, s with
  | S k', String c s' => String c (take k' s')
  | _, _ => EmptyString
  end.

Fixpoint drop (k : nat) (s : string) : string :=
  match k, s with
  | S k', String _ s' => drop k' s'
  | _, _ => s
  end.

Definition byte_of_ascii (c : ascii) : Z := Z.of_N (N_of_ascii c).

(** A digit or a letter from [a] to [f]. *)
Definition is_lower_hex (c : ascii) : bool :=
  let n := byte_of_ascii c in
  ((48 <=? n) && (n <=? 57)) || ((97 <=? n) && (n <=? 102)).

Fixpoint all_chars (p : ascii -> bool) (s : string) : bool :=
  match s with
  | EmptyString => true
  | String c s' => p c && all_chars p s'
  end.

(** The shape of a [hexdigest()] of a 256-bit digest: 64 lowercase
    hexadecimal characters. *)
Definition lower_hex_digest (s : string) : bool :=
  Nat.eqb (String.length s) 64 && all_chars is_lower_hex s.

Fixpoint bytes_of_string (s : string) : list Z :=
  match s with
  | EmptyString => []
  | String c s' => byte_of_ascii c :: bytes_of_string s'
  end.

(** ** SHA-256 (FIPS 180-4), on 32-bit words held in [Z] *)

Module SHA256.

Definition mask32 : Z := 0xffffffff.
Definition add32 (x y : Z) : Z := (x + y) mod 2 ^ 32.
Definition rotr (n x : Z) : Z :=
  Z.lor (Z.shiftr x n) (Z.land (Z.shiftl x (32 - n)) mask32).
Definition shr (n x : Z) : Z := Z.shiftr x n.
Definition xor3 (x y z : Z) : Z := Z.lxor (Z.lxor x y) z.

Definition Ch (x y z : Z) : Z :=
  Z.lxor (Z.land x y) (Z.land (Z.lxor x mask32) z).
Definition Maj (x y z : Z) : Z :=
  xor3 (Z.land x y) (Z.land x z) (Z.land y z).
Definition Sigma0 (x : Z) : Z := xor3 (rotr 2 x) (rotr 13 x) (rotr 22 x).
Definition Sigma1 (x : Z) : Z := xor3 (rotr 6 x) (rotr 11 x) (rotr 25 x).
Definition sigma0 (x : Z) : Z := xor3 (rotr 7 x) (rotr 18 x) (shr 3 x).
Definition sigma1 (x : Z) : Z := xor3 (rotr 17 x) (rotr 19 x) (shr 10 x).

(** The constants of the standard: the first 32 bits of the fractional
    parts of the cube roots (for [K]) and of the square roots (for [H0]) of
    the first primes. *)
Definition is_prime (n : Z) : bool :=
  (1 <? n) && forallb (fun d => negb (n mod Z.of_nat d =? 0))
                      (seq 2 (Z.to_nat n - 2)).

Definition primes_below (bound : nat) : list Z :=
  filter is_prime (map Z.of_nat (seq 0 bound)).

(** The largest [r] in [lo, hi) with [r ^ k <= n], by bisection. *)
Fixpoint root_between (fuel : nat) (k n lo hi : Z) : Z :=
  match fuel with
  | O => lo
  | S fuel' =>
      let mid := (lo + hi) / 2 in
      if hi - lo <=? 1 then lo
      else if mid ^ k <=? n then root_between fuel' k n mid hi
      else root_between fuel' k n lo mid
  end.

Definition fraction_bits (k p : Z) : Z :=
  root_between 64 k (p * 2 ^ (32 * k)) 0 (2 ^ 40) mod 2 ^ 32.

Definition K : list Z :=
  Eval vm_compute in map (fraction_bits 3) (primes_below 312).

Definition H0 : list Z :=
  Eval vm_compute in map (fraction_bits 2) (primes_below 20).

(** Padding: a 1 bit, zero bits up to 56 mod 64 bytes, then the bit length
    as a 64-bit big-endian integer. *)
Fixpoint be_bytes (k : nat) (n : Z) : list Z :=
  match k with
  | O => []
  | S k' => (be_bytes k' (n / 256) ++ [n mod 256])%list
  end.

Definition pad (msg : list Z) : list Z :=
  let len := Z.of_nat (List.length msg) in
  let zeros := Z.to_nat ((55 - len) mod 64) in
  (msg ++ [0x80] ++ repeat 0 zeros ++ be_bytes 8 (8 * len))%list.

Fixpoint words (fuel : nat) (bs : list Z) : list Z :=
  match fuel, bs with
  | S fuel', b0 :: b1 :: b2 :: b3 :: rest =>
      (((b0 * 256 + b1) * 256 + b2) * 256 + b3) :: words fuel' rest
  | _, _ => []
  end.

(** The message schedule: [win] holds W(t-16) .. W(t-1); each step emits
    the oldest word and slides the window. *)
Fixpoint schedule (n : nat) (win : list Z) : list Z :=
  match n, win with
  | S n', w0 :: rest =>
      let wt := add32 (add32 (sigma1 (nth 13 rest 0)) (nth 8 rest 0))
                      (add32 (sigma0 (nth 0 rest 0)) w0) in
      w0 :: schedule n' (rest ++ [wt])%list
  | _, _ => []
  end.

Record regs := Regs { ra : Z; rb : Z; rc : Z; rd : Z;
                      re : Z; rf : Z; rg : Z; rh : Z }.

Definition round (s : regs) (kw : Z * Z) : regs :=
  let t1 := add32 (add32 (add32 (rh s) (Sigma1 (re s)))
                         (add32 (Ch (re s) (rf s) (rg s)) (fst kw))) (snd kw) in
  let t2 := add32 (Sigma0 (ra s)) (Maj (ra s) (rb s) (rc s)) in
  Regs (add32 t1 t2) (ra s) (rb s) (rc s) (add32 (rd s) t1) (re s) (rf s) (rg s).

Definition regs_of (h : list Z) : regs :=
  Regs (nth 0 h 0) (nth 1 h 0) (nth 2 h 0) (nth 3 h 0)
       (nth 4 h 0) (nth 5 h 0) (nth 6 h 0) (nth 7 h 0).

Definition list_of (s : regs) : list Z :=
  [ra s; rb s; rc s; rd s; re s; rf s; rg s; rh s].

Definition compress (h : list Z) (block : list Z) : list Z :=
  let w := schedule 64 block in
  let s := fold_left round (combine K w) (regs_of h) in
  map (fun p => add32 (fst p) (snd p)) (combine h (list_of s)).

Fixpoint blocks (fuel : nat) (h : list Z) (ws : list Z) : list Z :=
  match fuel, ws with
  | S fuel', _ :: _ => blocks fuel' (compress h (firstn 16 ws)) (skipn 16 ws)
  | _, _ => h
  end.

Definition digest (msg : list Z) : list Z :=
  let ws := words (List.length msg + 72) (pad msg) in
  blocks (List.length ws) H0 ws.

Definition hexdigest (msg : string) : string :=
  concat EmptyString (map (hex_fixed 8) (digest (bytes_of_string msg))).

End SHA256.

(** ** [float.__repr__]: the shortest decimal that reads back as the float *)

Module PyFloat.

(** Exact comparisons of a decimal [d * 10^k] with a binary [x * 2^e]: each
    side is multiplied by the powers with a negative exponent of the other,
    so that only integers are compared. *)
Definition scale2 (x e : Z) : Z := x * 2 ^ Z.max e 0.
Definition scale10 (x k : Z) : Z := x * 10 ^ Z.max k 0.

(** [cmp_dec d k x e] compares [d * 10^k] with [x * 2^e]. *)
Definition cmp_dec (d k x e : Z) : comparison :=
  scale2 (scale10 d k) (- e) ?= scale10 (scale2 x e) (- k).

(** floor of [x * 2^e / 10^k]. *)
Definition floor_dec (x e k : Z) : Z :=
  scale10 (scale2 x e) (- k) / scale2 (scale10 1 k) (- e).

(** The largest [p] among [p0 - 1 .. p0 + 1] with [10^p <= x * 2^e], where
    [p0] estimates the decimal exponent from the binary one. *)
Definition dec_exponent (x e : Z) : Z :=
  let p0 := (Z.log2 x + e) * 30103 / 100000 in
  match cmp_dec 1 (p0 + 1) x e with
  | Gt => match cmp_dec 1 p0 x e with
          | Gt => p0 - 1
          | _ => p0
          end
  | _ => p0 + 1
  end.

(** The float [m * 2^e] is what every real number of its rounding interval
    reads back as.  In units of [2^(e-2)] the interval is
    [4m - lo, 4m + 2]; its ends belong to it when [m] is even. *)
Definition in_interval (m e d k : Z) : bool :=
  let lo := if (m =? 2 ^ 52) && (-1074 <? e) then 1 else 2 in
  match cmp_dec d k (4 * m - lo) (e - 2), cmp_dec d k (4 * m + 2) (e - 2) with
  | Gt, Lt => true
  | Eq, _ | _, Eq => Z.even m
  | _, _ => false
  end.

(** [n]-digit candidates around the value: the one below and the one above;
    of those that read back as the float, the nearer one. *)
Definition candidate (m e n : Z) : option (Z * Z) :=
  let k := dec_exponent m e - n + 1 in
  let d := floor_dec m e k in
  let below := in_interval m e d k in
  let above := in_interval m e (d + 1) k in
  match below, above with
  | false, false => None
  | true, false => Some (d, k)
  | false, true => Some (d + 1, k)
  | true, true =>
      (* [2d + 1] against twice the value decides which one is nearer *)
      match cmp_dec (2 * d + 1) k (2 * m) e with
      | Lt => Some (d + 1, k)
      | Gt => Some (d, k)
      | Eq => Some (if Z.even d then d else d + 1, k)
      end
  end.

Fixpoint shortest (fuel : nat) (m e n : Z) : Z * Z :=
  match fuel with
  | O => (floor_dec m e (dec_exponent m e - 16), dec_exponent m e - 16)
  | S fuel' =>
      match candidate m e n with
      | Some dk => dk
      | None => shortest fuel' m e (n + 1)
      end
  end.

Fixpoint strip_zeros (fuel : nat) (d k : Z) : Z * Z :=
  match fuel with
  | O => (d, k)
  | S fuel' => if (d mod 10 =? 0) && (0 <? d)
               then strip_zeros fuel' (d / 10) (k + 1) else (d, k)
  end.

(** The layout rule of [repr] for the digits [d] and the exponent [k]:
    exponent notation for values below 1e-4 or from 1e16 on, a decimal point
    with at least one digit after it otherwise. *)
Definition layout (d k : Z) : string :=
  let ds := str_int d in
  let n := Z.of_nat (String.length ds) in
  let decpt := k + n in
  if (decpt <=? -4) || (16 <? decpt) then
    let ex := decpt - 1 in
    let mant := if n =? 1 then ds else take 1 ds ++ "." ++ drop 1 ds in
    let exs := str_int (Z.abs ex) in
    mant ++ "e" ++ (if ex <? 0 then "-" else "+")
         ++ (if Z.abs ex <? 10 then "0" else EmptyString) ++ exs
  else if decpt <=? 0 then "0." ++ zeros (Z.to_nat (- decpt)) ++ ds
  else if n <=? decpt then ds ++ zeros (Z.to_nat (decpt - n)) ++ ".0"
  else take (Z.to_nat decpt) ds ++ "." ++ drop (Z.to_nat decpt) ds.

Definition repr (f : float) : string :=
  match Prim2SF f with
  | S754_zero s => if s then "-0.0" else "0.0"
  | S754_infinity s => if s then "-inf" else "inf"
  | S754_nan => "nan"
  | S754_finite s m e =>
      let '(d, k) := shortest 17 (Zpos m) e 1 in
      let '(d, k) := strip_zeros 17 d k in
      (if s then "-" else EmptyString) ++ layout d k
  end.

End PyFloat.

(** ** The two library functions the ledger depends on *)

Class Runtime := {
  (** [hashlib.sha256(text.encode()).hexdigest()] *)
  sha256_hexdigest : string -> string;
  (** [float.__repr__], which is also [str] of a float *)
  float_repr : float -> string
}.

Definition python_runtime : Runtime :=
  {| sha256_hexdigest := SHA256.hexdigest; float_repr := PyFloat.repr |}.

(** ** JSON values and [json.dumps] *)

(** The values the program serialises.  A [dict] is kept as its items in
    insertion order; the program only builds dicts from literals with
    distinct string keys. *)
#[warnings="-register-all"]
Inductive json :=
| JNull
| JBool (b : bool)
| JInt (n : Z)
| JFloat (f : float)
| JStr (s : string)
| JList (items : list json)
| JDict (items : list (string * json)).

Definition dquote : string := String "034"%char EmptyString.
Definition backslash : string := String "092"%char EmptyString.
Definition newline : string := String "010"%char EmptyString.

(** [py_encode_basestring_ascii]: the characters from space to tilde stand
    for themselves, except the quote and the backslash. *)
Definition escape_char (c : ascii) : string :=
  let n := byte_of_ascii c in
  if n =? 34 then backslash ++ dquote
  else if n =? 92 then backslash ++ backslash
  else if n =? 10 then backslash ++ "n"
  else if n =? 13 then backslash ++ "r"
  else if n =? 9 then backslash ++ "t"
  else if n =? 8 then backslash ++ "b"
  else if n =? 12 then backslash ++ "f"
  else if (32 <=? n) && (n <=? 126) then String c EmptyString
  else backslash ++ "u" ++ hex_fixed 4 n.

Fixpoint escape (s : string) : string :=
  match s with
  | EmptyString => EmptyString
  | String c s' => escape_char c ++ escape s'
  end.

Definition encode_str (s : string) : string := dquote ++ escape s ++ dquote.

(** [sorted(dct.items())] on items with distinct keys: a stable insertion
    sort on the key. *)
Fixpoint insert_item {A : Type} (x : string * A) (l : list (string * A))
  : list (string * A) :=
  match l with
  | [] => [x]
  | y :: l' => if String.leb (fst x) (fst y) then x :: y :: l'
               else y :: insert_item x l'
  end.

Definition sorted_items {A : Type} (l : list (string * A)) : list (string * A) :=
  fold_right insert_item [] l.

(** ** Blocks, exceptions and the ledger file *)

(** A block is the dict with the keys [index], [timestamp], [prev_hash],
    [data] and [hash], written in that order. *)
Record Block := {
  index : Z;
  timestamp : float;
  prev_hash : string;
  data : json;
  hash : string
}.

Inductive exn :=
| IndexError
| JSONDecodeError
| OSError
| HTTPException (status_code : Z) (detail : string).

Inductive result (A : Type) :=
| Ok (a : A)
| Raise (e : exn).

Arguments Ok {A} a.
Arguments Raise {A} e.

(** What [ledger.json] holds: nothing ([os.path.exists] is false), the text
    [json.dump(chain, f, indent=2)] of a chain, which [json.load] reads back
    as that chain, or the bytes an interrupted write left behind, on which
    [json.load] raises. *)
Inductive ledger_file :=
| Missing
| Stored (chain : list Block)
| Torn (text : string).

(** How the disk behaves while [add_block] holds the file open. *)
Inductive disk :=
| Healthy
| OpenFails                (* [open(LEDGER_PATH, "r+")] raises *)
| ReadFails                (* [json.load(f)] cannot read the file *)
| WriteFails (k : nat).    (* only [k] bytes of the new text reach the file *)

(** [chain[-1]] *)
Fixpoint last_block (chain : list Block) : option Block :=
  match chain with
  | [] => None
  | [b] => Some b
  | _ :: rest => last_block rest
  end.

(** [l[start:]] with Python's treatment of negative and large [start]. *)
Definition slice_from {A : Type} (start : Z) (l : list A) : list A :=
  let n := Z.of_nat (List.length l) in
  let s := if start <? 0 then Z.max (start + n) 0 else Z.min start n in
  skipn (Z.to_nat s) l.

(** Writing [new] from position 0 over [old] when only [k] bytes get through
    and [f.truncate()] is not reached. *)
Definition overwrite (old new : string) (k : nat) : string :=
  take k new ++ drop k old.

(** ** The SQLite tables *)

Record shipment_row := {
  shipment_id : string;
  batch_id : string;
  status : string;
  created_at : string
}.

Record telemetry_row := {
  t_shipment_id : string;
  t_ts : string;
  t_lat : float;
  t_lon : float;
  t_temp : float;
  t_humidity : float;
  t_pressure : float;
  t_tamper : Z
}.

(** [insert_shipment(shipment_id, batch_id)], with [status] at its default:
    [shipment_id] is UNIQUE and the IntegrityError of a second insert is
    swallowed.  [now] is [utcnow().isoformat()]. *)
Definition insert_shipment (now : string) (sid batch : string)
    (table : list shipment_row) : list shipment_row :=
  if existsb (fun r => String.eqb (shipment_id r) sid) table then table
  else table ++ [ {| shipment_id := sid; batch_id := batch;
                     status := "In Transit"; created_at := now |} ].

(** One sampled reading, as [simulation_loop] computes it from the random
    generator: jittered position, rounded temperature, humidity and pressure,
    and the tamper flag. *)
Record reading := {
  lat : float;
  lon : float;
  temp : float;
  humidity : float;
  pressure : float;
  tamper : bool
}.

(** [insert_telemetry]; [now] is [utcnow().isoformat()]. *)
Definition insert_telemetry (now : string) (sid : string) (r : reading)
    (table : list telemetry_row) : list telemetry_row :=
  table ++ [ {| t_shipment_id := sid; t_ts := now; t_lat := lat r;
                t_lon := lon r; t_temp := temp r; t_humidity := humidity r;
                t_pressure := pressure r;
                t_tamper := if tamper r then 1 else 0 |} ].

(** ** Threads and the state of the process *)

(** A [Thread] running [simulation_loop] with the given arguments;
    [alive] is what [is_alive()] answers. *)
Record thread := {
  thread_shipment_ids : list string;
  thread_interval : float;
  alive : bool
}.

(** The globals [sim_thread] (a handle into the threads ever started) and
    [sim_stop_event], the two tables and the ledger file. *)
Record system := {
  ledger : ledger_file;
  shipments : list shipment_row;
  telemetry : list telemetry_row;
  threads : list thread;
  sim_thread : option nat;
  sim_stop_event : bool
}.

(** [range(lo, hi)] *)
Definition py_range (lo hi : Z) : list Z :=
  map (fun k => lo + Z.of_nat k) (seq 0 (Z.to_nat (hi - lo))).

(** [s[-1]] of a non-empty string. *)
Fixpoint last_char (s : string) : string :=
  match s with
  | EmptyString => EmptyString
  | String c EmptyString => String c EmptyString
  | String _ rest => last_char rest
  end.

(** [sim_thread and sim_thread.is_alive()] *)
Definition running (s : system) : bool :=
  match sim_thread s with
  | None => false
  | Some h => match nth_error (threads s) h with
              | Some t => alive t
              | None => false
              end
  end.

(** [tamper or temp < 2 or temp > 30] *)
Definition anomalous (r : reading) : bool :=
  tamper r || PrimFloat.ltb (temp r) 2 || PrimFloat.ltb 30 (temp r).

(** What one run of the loop body takes from its environment: the sampled
    reading, the two [utcnow()] texts (telemetry row, alert payload) and the
    two clock readings [add_block] may take. *)
Record draw := {
  sampled : reading;
  row_ts : string;
  alert_ts : string;
  clock0 : float;
  clock : float
}.

(** ** Concurrent calls of [add_block] *)

(** Where a call of [add_block] stands: not yet at the file, holding the
    chain it read with [json.load], or finished. *)
Inductive call_state :=
| Called (event_type : string) (payload : json)
| Loaded (event_type : string) (payload : json) (chain : list Block)
| Returned (block : Block)
| Raised (e : exn).

(** One turn of the scheduler: the call that runs and the clock readings it
    may take. *)
Record turn := {
  who : nat;
  turn_clock0 : float;
  turn_clock : float
}.

Fixpoint replace_nth {A : Type} (i : nat) (x : A) (l : list A) : list A :=
  match i, l with
  | O, _ :: rest => x :: rest
  | S i', y :: rest => y :: replace_nth i' x rest
  | _, [] => []
  end.

(** ** The chain invariants of the specification *)

(** Contiguity: [chain[i].index == i], checked from position [i]. *)
Fixpoint contiguous_from (i : Z) (chain : list Block) : bool :=
  match chain with
  | [] => true
  | b :: rest => (index b =? i) && contiguous_from (i + 1) rest
  end.

Definition contiguous (chain : list Block) : bool := contiguous_from 0 chain.

(** Linkage: [chain[i].prev_hash == chain[i-1].hash] for [i > 0]. *)
Fixpoint linked (chain : list Block) : bool :=
  match chain with
  | a :: (b :: _) as rest => String.eqb (prev_hash b) (hash a) && linked rest
  | _ => true
  end.

(** A well-formed chain: non-empty, contiguous and linked. *)
Definition well_formed (chain : list Block) : bool :=
  negb (Nat.eqb (List.length chain) 0) && contiguous chain && linked chain.

Section Program.

Context {R : Runtime}.

(** [floatstr] of the encoder. *)
Definition encode_float (f : float) : string :=
  if negb (PrimFloat.eqb f f) then "NaN"
  else if PrimFloat.eqb f infinity then "Infinity"
  else if PrimFloat.eqb f neg_infinity then "-Infinity"
  else float_repr f.

(** The separators of [json.dumps]: [", "] between items without [indent],
    [","] followed by a new line and the indentation with it. *)
Definition newline_indent (indent : option nat) (level : nat) : string :=
  match indent with
  | None => EmptyString
  | Some n => newline ++ str_mul " " (n * level)
  end.

Definition item_separator (indent : option nat) : string :=
  match indent with
  | None => ", "
  | Some _ => ","
  end.

Definition enclose (indent : option nat) (level : nat)
    (opening closing : string) (parts : list string) : string :=
  opening ++ newline_indent indent (S level)
    ++ concat (item_separator indent ++ newline_indent indent (S level)) parts
    ++ newline_indent indent level ++ closing.

(** [json.dumps(v, indent=indent, sort_keys=sort_keys)] at nesting depth
    [level].  The values of a dict are encoded before its items are sorted;
    the encoder has no effects, so the text is the one Python builds by
    sorting first. *)
Fixpoint encode (indent : option nat) (sort_keys : bool) (level : nat)
    (v : json) {struct v} : string :=
  match v with
  | JNull => "null"
  | JBool true => "true"
  | JBool false => "false"
  | JInt n => str_int n
  | JFloat f => encode_float f
  | JStr s => encode_str s
  | JList [] => "[]"
  | JList items =>
      enclose indent level "[" "]"
        (map (encode indent sort_keys (S level)) items)
  | JDict [] => "{}"
  | JDict items =>
      let encoded :=
        map (fun kv => (fst kv, encode indent sort_keys (S level) (snd kv)))
            items in
      let ordered := if sort_keys then sorted_items encoded else encoded in
      enclose indent level "{" "}"
        (map (fun kv => encode_str (fst kv) ++ ": " ++ snd kv) ordered)
  end.

(** [json.dumps(v, sort_keys=True)], the text that gets hashed. *)
Definition dumps_sorted (v : json) : string := encode None true 0 v.

(** *** The ledger *)

Definition block_json (b : Block) : json :=
  JDict [ ("index", JInt (index b)); ("timestamp", JFloat (timestamp b));
          ("prev_hash", JStr (prev_hash b)); ("data", data b);
          ("hash", JStr (hash b)) ].

(** The text of [json.dump(chain, f, indent=2)]. *)
Definition dump_chain (chain : list Block) : string :=
  encode (Some 2%nat) false 0 (JList (map block_json chain)).

Definition genesis_data : json := JDict [("genesis", JBool true)].

(** [init_ledger()], with [now] the value of [time.time()]. *)
Definition init_ledger (now : float) (file : ledger_file) : ledger_file :=
  match file with
  | Missing =>
      let genesis_hash := sha256_hexdigest (dumps_sorted genesis_data) in
      Stored [ {| index := 0; timestamp := now; prev_hash := str_mul "0" 64;
                  data := genesis_data; hash := genesis_hash |} ]
  | _ => file
  end.

(** The block [add_block] derives from the tail [last]. *)
Definition new_block (now : float) (event_type : string) (payload : json)
    (last : Block) : Block :=
  let block_data := JDict [("event", JStr event_type); ("payload", payload)] in
  {| index := index last + 1;
     timestamp := now;
     prev_hash := hash last;
     data := block_data;
     hash := sha256_hexdigest
               (dumps_sorted block_data ++ float_repr now ++ hash last) |}.

(** What the file holds after the write of [chain ++ [block]] over the text
    of [chain] stopped after [k] bytes. *)
Definition interrupted_write (chain : list Block) (block : Block) (k : nat)
  : ledger_file :=
  let old := dump_chain chain in
  let new := dump_chain (chain ++ [block]) in
  let text := overwrite old new k in
  if String.eqb text old then Stored chain
  else if String.eqb text new then Stored (chain ++ [block])
  else Torn text.

(** [add_block(event_type, payload)] on a disk that behaves as [io] says.
    [now0] is the clock reading [init_ledger] takes when it has to create
    the file, [now] the one taken for the new block.  The result is the
    returned block or the exception raised, and the file afterwards. *)
Definition add_block_on (io : disk) (now0 now : float) (event_type : string)
    (payload : json) (file : ledger_file) : result Block * ledger_file :=
  let file := match file with
              | Missing => init_ledger now0 file
              | _ => file
              end in
  match io, file with
  | OpenFails, _ => (Raise OSError, file)
  | _, Missing => (Raise OSError, file)
  | ReadFails, _ => (Raise OSError, file)
  | _, Torn _ => (Raise JSONDecodeError, file)
  | _, Stored chain =>
      match last_block chain with
      | None => (Raise IndexError, file)
      | Some last =>
          let block := new_block now event_type payload last in
          match io with
          | WriteFails k => (Raise OSError, interrupted_write chain block k)
          | _ => (Ok block, Stored (chain ++ [block]))
          end
      end
  end.

(** [add_block] when the disk works. *)
Definition add_block : float -> float -> string -> json -> ledger_file ->
    result Block * ledger_file :=
  add_block_on Healthy.

(** [api_ledger(limit)]: the [chain] entry of the response. *)
Definition api_ledger (limit : Z) (file : ledger_file) : result (list Block) :=
  match file with
  | Missing => Ok []
  | Torn _ => Raise JSONDecodeError
  | Stored chain => Ok (slice_from (- limit) chain)
  end.

(** *** The telemetry loop *)

(** The payload of the ALERT block. *)
Definition alert_payload (sid : string) (r : reading) (ts : string) : json :=
  JDict [ ("shipment_id", JStr sid); ("temp", JFloat (temp r));
          ("tamper", JBool (tamper r)); ("ts", JStr ts) ].

(** The body of [for sid in shipment_ids] for one shipment.  An exception
    of [add_block] leaves the loop, so it is the result. *)
Definition simulation_body (d : draw) (sid : string) (s : system)
  : result unit * system :=
  let r := sampled d in
  let telemetry' := insert_telemetry (row_ts d) sid r (telemetry s) in
  if anomalous r then
    let payload := alert_payload sid r (alert_ts d) in
    let '(res, file) := add_block (clock0 d) (clock d) "ALERT" payload (ledger s) in
    (match res with Ok _ => Ok tt | Raise e => Raise e end,
     {| ledger := file; shipments := shipments s; telemetry := telemetry';
        threads := threads s; sim_thread := sim_thread s;
        sim_stop_event := sim_stop_event s |})
  else
    (Ok tt,
     {| ledger := ledger s; shipments := shipments s; telemetry := telemetry';
        threads := threads s; sim_thread := sim_thread s;
        sim_stop_event := sim_stop_event s |}).

(** One pass of the [for] loop over the roster, one draw per shipment. *)
Fixpoint simulation_pass (ds : list draw) (ids : list string) (s : system)
  : result unit * system :=
  match ids, ds with
  | sid :: ids', d :: ds' =>
      match simulation_body d sid s with
      | (Ok _, s') => simulation_pass ds' ids' s'
      | failed => failed
      end
  | _, _ => (Ok tt, s)
  end.

(** *** The simulation controller *)

(** [api_simulate_start(s)]: [utc n] is [utcnow().isoformat()] at the
    [n]-th [insert_shipment].  The result is the [shipments] entry of the
    response or the exception. *)
Definition api_simulate_start (utc : nat -> string) (shipment_count : Z)
    (interval_sec : float) (s : system) : result (list string) * system :=
  if running s then
    (Raise (HTTPException 400 "Simulation already running"), s)
  else
    let shipment_ids :=
      map (fun i => "SHIP-SIM-" ++ str_int i) (py_range 1 (shipment_count + 1)) in
    let shipments' :=
      fold_left (fun table p =>
                   insert_shipment (utc (fst p)) (snd p)
                                   ("BATCH-SIM-" ++ last_char (snd p)) table)
                (combine (seq 0 (List.length shipment_ids)) shipment_ids)
                (shipments s) in
    (Ok shipment_ids,
     {| ledger := ledger s; shipments := shipments'; telemetry := telemetry s;
        threads := threads s ++ [ {| thread_shipment_ids := shipment_ids;
                                     thread_interval := interval_sec;
                                     alive := true |} ];
        sim_thread := Some (List.length (threads s));
        sim_stop_event := false |}).

(** [api_simulate_stop()] *)
Definition api_simulate_stop (s : system) : system :=
  {| ledger := ledger s; shipments := shipments s; telemetry := telemetry s;
     threads := threads s; sim_thread := sim_thread s;
     sim_stop_event := true |}.

(** *** Two-step execution of [add_block]

    A call first runs up to and including [json.load(f)] and later does the
    rest: it derives the block from the chain it holds and writes that chain
    with the block added.  [add_block] takes no lock, so turns of other calls
    may come between the two steps. *)
Definition call_step (now0 now : float) (c : call_state) (file : ledger_file)
  : call_state * ledger_file :=
  match c with
  | Called event_type payload =>
      let file := match file with
                  | Missing => init_ledger now0 file
                  | _ => file
                  end in
      match file with
      | Stored chain => (Loaded event_type payload chain, file)
      | Torn _ => (Raised JSONDecodeError, file)
      | Missing => (Raised OSError, file)
      end
  | Loaded event_type payload chain =>
      match last_block chain with
      | None => (Raised IndexError, file)
      | Some last =>
          let block := new_block now event_type payload last in
          (Returned block, Stored (chain ++ [block]))
      end
  | _ => (c, file)
  end.

Definition turn_step (cfg : list call_state * ledger_file) (tn : turn)
  : list call_state * ledger_file :=
  match nth_error (fst cfg) (who tn) with
  | None => cfg
  | Some c =>
      let '(c', file') := call_step (turn_clock0 tn) (turn_clock tn) c (snd cfg) in
      (replace_nth (who tn) c' (fst cfg), file')
  end.

Definition run (schedule : list turn) (cfg : list call_state * ledger_file)
  : list call_state * ledger_file :=
  fold_left turn_step schedule cfg.

(** The schedule in which the calls run one after the other: call [i], then
    call [i + 1], each doing both its steps without interruption. *)
Fixpoint serial (i : nat) (clocks : list (float * float)) : list turn :=
  match clocks with
  | [] => []
  | (t0, t) :: rest =>
      {| who := i; turn_clock0 := t0; turn_clock := t |}
      :: {| who := i; turn_clock0 := t0; turn_clock := t |}
      :: serial (S i) rest
  end.

Definition returned (c : call_state) : bool :=
  match c with
  | Returned _ => true
  | _ => false
  end.

(** *** The block hasher of the specification

    Written from the specification's words, to be compared with the hashes
    [init_ledger] and [add_block] store: the genesis block (index 0) is
    hashed over its encoded [data] alone, every other block over the encoded
    [data], the text of [timestamp] and [prev_hash]. *)
Definition recompute_hash (b : Block) : string :=
  if index b =? 0 then sha256_hexdigest (dumps_sorted (data b))
  else sha256_hexdigest
         (dumps_sorted (data b) ++ float_repr (timestamp b) ++ prev_hash b).

Definition hash_correct (chain : list Block) : bool :=
  forallb (fun b => String.eqb (hash b) (recompute_hash b)) chain.

(** What holds of every file the program leaves behind: it is missing or
    holds a non-empty, contiguous, linked chain with correct hashes. *)
Definition chain_invariant (file : ledger_file) : Prop :=
  match file with
  | Missing => True
  | Stored chain =>
      chain <> [] /\ contiguous chain = true /\ linked chain = true /\
      hash_correct chain = true
  | Torn _ => False
  end.

(** The files the program can leave behind, starting without a file:
    any number of [init_ledger] and [add_block] calls, with any clock
    readings, event types and payloads. *)
Inductive persisted : ledger_file -> Prop :=
| persisted_fresh : persisted Missing
| persisted_init : forall now file,
    persisted file -> persisted (init_ledger now file)
| persisted_append : forall now0 now event_type payload file,
    persisted file ->
    persisted (snd (add_block now0 now event_type payload file)).

End Program.

(** ** The rest of the program: queries, batch registration, startup *)

(** [get_shipments()]: the rows by descending [id], that is, newest first.
    The dicts carry the four columns of a row. *)
Definition get_shipments (table : list shipment_row) : list shipment_row :=
  rev table.

(** A dict of [get_telemetry_latest]. *)
Record telemetry_point := {
  p_ts : string;
  p_lat : option float;
  p_lon : option float;
  p_temp : option float;
  p_humidity : option float;
  p_pressure : option float;
  p_tamper : bool
}.

(** What comes back from a REAL column: SQLite keeps a NaN as NULL, which
    is read as [None]; every other float comes back as it was bound. *)
Definition real_column (x : float) : option float :=
  if PrimFloat.eqb x x then Some x else None.

Definition point_of_row (r : telemetry_row) : telemetry_point :=
  {| p_ts := t_ts r;
     p_lat := real_column (t_lat r);
     p_lon := real_column (t_lon r);
     p_temp := real_column (t_temp r);
     p_humidity := real_column (t_humidity r);
     p_pressure := real_column (t_pressure r);
     p_tamper := negb (t_tamper r =? 0) |}.


(** [LIMIT ?] of SQLite: a negative limit is no limit. *)
Definition sql_limit {A : Type} (limit : Z) (rows : list A) : list A :=
  if limit <? 0 then rows else firstn (Z.to_nat limit) rows.

(** [get_telemetry_latest(shipment_id, limit)]: the rows of the shipment by
    descending [id], cut by [LIMIT], then reversed ([rows[::-1]]).  [None]
    stands for the OverflowError of [sqlite3] when [limit] does not fit a
    64-bit integer. *)
Definition get_telemetry_latest (sid : string) (limit : Z)
    (table : list telemetry_row) : option (list telemetry_point) :=
  if (limit <? - 2 ^ 63) || (2 ^ 63 <=? limit) then None
  else
    let rows :=
      sql_limit limit
        (rev (filter (fun r => String.eqb (t_shipment_id r) sid) table)) in
    Some (map point_of_row (rev rows)).

(** [register_batch(b)]: the [block] entry of the response, or the
    exception of [add_block]. *)
Definition register_batch {R : Runtime} (now0 now : float)
    (batch manufacturer : string) (file : ledger_file)
  : result Block * ledger_file :=
  add_block now0 now "REGISTER_BATCH"
            (JDict [("batch_id", JStr batch); ("manufacturer", JStr manufacturer)])
            file.

(** The calls that write the ledger, and a run of them in order. *)
Inductive ledger_call :=
| CallInit (now : float)
| CallAppend (now0 now : float) (event_type : string) (payload : json).

Definition ledger_step {R : Runtime} (file : ledger_file) (c : ledger_call)
  : ledger_file :=
  match c with
  | CallInit now => init_ledger now file
  | CallAppend now0 now event_type payload =>
      snd (add_block now0 now event_type payload file)
  end.

Definition ledger_run {R : Runtime} (calls : list ledger_call)
    (file : ledger_file) : ledger_file :=
  fold_left ledger_step calls file.

Definition is_append (c : ledger_call) : bool :=
  match c with
  | CallAppend _ _ _ _ => true
  | CallInit _ => false
  end.

(** The five [random.random()] values behind one seeded telemetry row. *)
Record uniform5 := {
  u_lat : float;
  u_lon : float;
  u_temp : float;
  u_humidity : float;
  u_pressure : float
}.

(** The reading [startup] inserts for the draws [u]; the tamper flag is
    [False]. *)
#[warnings="-inexact-float"]
Definition seed_reading (u : uniform5) : reading :=
  {| lat := 12.9716 + u_lat u * 0.01;
     lon := 77.5946 + u_lon u * 0.01;
     temp := 22 + u_temp u;
     humidity := 45 + u_humidity u * 3;
     pressure := 1013 + u_pressure u * 2;
     tamper := false |}.

(** The body of [for i in range(1, 4)] in [startup]: shipment [i] and its
    six telemetry rows.  [utc n] is [utcnow().isoformat()] at the [n]-th
    insert of [startup], [draws i j] the random values of row [j]. *)
Definition seed_shipment (utc : nat -> string) (draws : Z -> nat -> uniform5)
    (tables : list shipment_row * list telemetry_row) (i : Z)
  : list shipment_row * list telemetry_row :=
  let sid := "SHIP-100" ++ str_int i in
  let base := (7 * Z.to_nat (i - 1))%nat in
  (insert_shipment (utc base) sid ("BATCH-00" ++ str_int i) (fst tables),
   fold_left (fun table j =>
                insert_telemetry (utc (base + 1 + j)%nat) sid
                                 (seed_reading (draws i j)) table)
             (seq 0 6) (snd tables)).

(** [startup()]: [init_db] creates the tables only if they are missing, so
    it leaves existing rows alone; then the ledger is initialised and the
    three shipments are seeded. *)
Definition startup {R : Runtime} (now : float) (utc : nat -> string)
    (draws : Z -> nat -> uniform5) (s : system) : system :=
  let tables :=
    fold_left (seed_shipment utc draws) (py_range 1 4)
              (shipments s, telemetry s) in
  {| ledger := init_ledger now (ledger s);
     shipments := fst tables;
     telemetry := snd tables;
     threads := threads s;
     sim_thread := sim_thread s;
     sim_stop_event := sim_stop_event s |}.

(** ** The simulation thread and the requests, one at a time *)

(** The end of a thread: [is_alive()] turns false. *)
Definition end_thread (h : nat) (s : system) : system :=
  {| ledger := ledger s; shipments := shipments s; telemetry := telemetry s;
     threads :=
       match nth_error (threads s) h with
       | Some t => replace_nth h {| thread_shipment_ids := thread_shipment_ids t;
                                    thread_interval := thread_interval t;
                                    alive := false |} (threads s)
       | None => threads s
       end;
     sim_thread := sim_thread s; sim_stop_event := sim_stop_event s |}.

(** One iteration of [while not sim_stop_event.is_set()] in thread [h]:
    the thread ends when it finds the flag set or when the pass raises;
    otherwise it has run the pass over its roster (and sleeps).  [draws n]
    is what the body takes from its environment for the [n]-th shipment of
    the roster. *)
Definition thread_turn {R : Runtime} (h : nat) (draws : nat -> draw)
    (s : system) : system :=
  match nth_error (threads s) h with
  | None => s
  | Some t =>
      if negb (alive t) then s
      else if sim_stop_event s then end_thread h s
      else
        let ids := thread_shipment_ids t in
        match simulation_pass (map draws (seq 0 (List.length ids))) ids s with
        | (Ok _, s') => s'
        | (Raise _, s') => end_thread h s'
        end
  end.

(** What happens to the process, one thing at a time: a start request, a
    stop request, or a turn of a thread. *)
Inductive event :=
| StartRequest (utc : nat -> string) (shipment_count : Z) (interval_sec : float)
| StopRequest
| ThreadTurn (h : nat) (draws : nat -> draw).

Definition handle {R : Runtime} (s : system) (e : event) : system :=
  match e with
  | StartRequest utc shipment_count interval_sec =>
      snd (api_simulate_start utc shipment_count interval_sec s)
  | StopRequest => api_simulate_stop s
  | ThreadTurn h draws => thread_turn h draws s
  end.

Definition handle_all {R : Runtime} (events : list event) (s : system) : system :=
  fold_left handle events s.

(** Every thread that is alive is the one [sim_thread] points to. *)
Definition sole_generator (s : system) : Prop :=
  forall h t, nth_error (threads s) h = Some t -> alive t = true ->
              sim_thread s = Some h.

(** ** Sample data for evaluation

    A registration on a fresh ledger, with the digests Python's [hashlib]
    gives for these inputs. *)

Definition demo_t0 : float := 1762190000.5.
Definition demo_t1 : float := 1762190001.25.
Definition demo_t2 : float := 1762190002.75.

Definition demo_payload : json :=
  JDict [("batch_id", JStr "BATCH-001"); ("manufacturer", JStr "Acme")].

Definition demo_genesis : Block :=
  {| index := 0;
     timestamp := demo_t0;
     prev_hash := "0000000000000000000000000000000000000000000000000000000000000000";
     data := JDict [("genesis", JBool true)];
     hash := "4b448eee8afb100ead56953e9120ab94b430b22fe897fb1b9c6770f76fba2143" |}.

Definition demo_block : Block :=
  {| index := 1;
     timestamp := demo_t1;
     prev_hash := "4b448eee8afb100ead56953e9120ab94b430b22fe897fb1b9c6770f76fba2143";
     data := JDict [("event", JStr "REGISTER_BATCH"); ("payload", demo_payload)];
     hash := "1c5b4a42b25740c61e2ba01a7df273cd536a7e0af4b3cf63bb17967f88606e75" |}.

(** The reading of the specification's scenario: 35 degrees, no tamper. *)
Definition demo_hot : draw :=
  {| sampled := {| lat := 12.5; lon := 77.5; temp := 35; humidity := 40.25;
                   pressure := 1008.5; tamper := false |};
     row_ts := "2025-11-03T17:13:22.250000";
     alert_ts := "2025-11-03T17:13:22.500000";
     clock0 := demo_t0;
     clock := demo_t2 |}.

Definition demo_alert : Block :=
  {| index := 1;
     timestamp := demo_t2;
     prev_hash := "4b448eee8afb100ead56953e9120ab94b430b22fe897fb1b9c6770f76fba2143";
     data := JDict [ ("event", JStr "ALERT");
                     ("payload",
                      JDict [ ("shipment_id", JStr "S1"); ("temp", JFloat 35);
                              ("tamper", JBool false);
                              ("ts", JStr "2025-11-03T17:13:22.500000") ]) ];
     hash := "cf4971c13a63c74e0dd9b1f96e8ecdb80d57406d4ee0b608253c2547a9639851" |}.

Definition demo_mild : draw :=
  {| sampled := {| lat := 12.5; lon := 77.5; temp := 20; humidity := 40.25;
                   pressure := 1008.5; tamper := false |};
     row_ts := "2025-11-03T17:13:24.250000";
     alert_ts := "2025-11-03T17:13:24.500000";
     clock0 := demo_t0;
     clock := demo_t2 |}.

Definition demo_system : system :=
  {| ledger := Stored [demo_genesis]; shipments := []; telemetry := [];
     threads := []; sim_thread := None; sim_stop_event := false |}.

Definition demo_utc (n : nat) : string := "2025-11-03T17:13:20.000000".

(** Two calls whose steps alternate: both read the chain before either
    writes. *)
Definition demo_interleaving : list turn :=
  [ {| who := 0; turn_clock0 := demo_t0; turn_clock := demo_t1 |};
    {| who := 1; turn_clock0 := demo_t0; turn_clock := demo_t2 |};
    {| who := 0; turn_clock0 := demo_t0; turn_clock := demo_t1 |};
    {| who := 1; turn_clock0 := demo_t0; turn_clock := demo_t2 |} ].

Definition demo_calls : list (string * json) :=
  [ ("REGISTER_BATCH", demo_payload);
    ("ALERT", alert_payload "S1" (sampled demo_hot) (alert_ts demo_hot)) ].

Definition demo_torn_system : system :=
  {| ledger := Torn "[{"; shipments := []; telemetry := [];
     threads := []; sim_thread := None; sim_stop_event := false |}.

Definition demo_ledger_calls : list ledger_call :=
  [ CallInit demo_t2;
    CallAppend demo_t0 demo_t1 "REGISTER_BATCH" demo_payload;
    CallAppend demo_t0 demo_t2 "ALERT" (JDict [("shipment_id", JStr "S1")]) ].

(** Two rows for S1 around one for S2. *)
Definition demo_telemetry : list telemetry_row :=
  insert_telemetry "2025-11-03T17:13:26.250000" "S1" (sampled demo_hot)
    (insert_telemetry "2025-11-03T17:13:24.250000" "S2" (sampled demo_mild)
       (insert_telemetry "2025-11-03T17:13:22.250000" "S1" (sampled demo_mild) [])).

Definition demo_draws (n : nat) : draw := demo_mild.

(** A start, a second start during the run, a stop, the turn in which the
    thread sees the stop, and a new start. *)
Definition demo_events : list event :=
  [ StartRequest demo_utc 3 2; StartRequest demo_utc 3 2; StopRequest;
    ThreadTurn 0 demo_draws; StartRequest demo_utc 2 2 ].

(** * Properties *)

Section Properties.

Context {R : Runtime}.

Local Open Scope list_scope.

(** ** The digest text *)

Lemma hex_digit_lower (d : Z) :
  0 <= d < 16 -> is_lower_hex (hex_digit d) = true.
Proof.
  intro H.
  assert (Hd : d = 0 \/ d = 1 \/ d = 2 \/ d = 3 \/ d = 4 \/ d = 5 \/ d = 6
               \/ d = 7 \/ d = 8 \/ d = 9 \/ d = 10 \/ d = 11 \/ d = 12
               \/ d = 13 \/ d = 14 \/ d = 15) by lia.
  repeat (destruct Hd as [-> | Hd]; [reflexivity|]). subst d. reflexivity.
Qed.

Lemma all_chars_app (p : ascii -> bool) (s1 s2 : string) :
  all_chars p (s1 ++ s2) = all_chars p s1 && all_chars p s2.
Proof.
  induction s1 as [|c s1 IH]; [reflexivity|].
  simpl. rewrite IH, andb_assoc. reflexivity.
Qed.

Lemma string_length_app (s1 s2 : string) :
  String.length (s1 ++ s2) = (String.length s1 + String.length s2)%nat.
Proof.
  induction s1 as [|c s1 IH]; [reflexivity|]. simpl. rewrite IH. reflexivity.
Qed.

Lemma hex_fixed_shape (k : nat) (n : Z) :
  String.length (hex_fixed k n) = k /\
  all_chars is_lower_hex (hex_fixed k n) = true.
Proof.
  revert n. induction k as [|k IH]; intro n; [split; reflexivity|].
  destruct (IH (n / 16)) as [Hl Ha]. cbn [hex_fixed].
  rewrite string_length_app, all_chars_app, Hl, Ha. split.
  - simpl. lia.
  - simpl. rewrite hex_digit_lower; [reflexivity|].
    apply Z.mod_pos_bound. lia.
Qed.

Lemma concat_hex_shape (ws : list Z) :
  String.length (concat EmptyString (map (hex_fixed 8) ws))
  = (8 * List.length ws)%nat /\
  all_chars is_lower_hex (concat EmptyString (map (hex_fixed 8) ws)) = true.
Proof.
  induction ws as [|w ws [IHl IHa]]; [split; reflexivity|].
  destruct (hex_fixed_shape 8 w) as [Hl Ha].
  destruct ws as [|w' ws].
  - cbn [map concat List.length]. split; [rewrite Hl; reflexivity | exact Ha].
  - change (concat EmptyString (map (hex_fixed 8) (w :: w' :: ws)))
      with (hex_fixed 8 w
            ++ EmptyString ++ concat EmptyString (map (hex_fixed 8) (w' :: ws)))%string.
    cbn [String.append]. rewrite string_length_app, all_chars_app, Hl, Ha, IHl, IHa.
    split; [cbn [List.length]; lia | reflexivity].
Qed.

Lemma compress_length (h block : list Z) :
  List.length h = 8%nat -> List.length (SHA256.compress h block) = 8%nat.
Proof.
  intro H. unfold SHA256.compress.
  rewrite length_map, length_combine, H. reflexivity.
Qed.

Lemma blocks_length (fuel : nat) (h ws : list Z) :
  List.length h = 8%nat -> List.length (SHA256.blocks fuel h ws) = 8%nat.
Proof.
  revert h ws. induction fuel as [|fuel IH]; intros h ws H; [exact H|].
  destruct ws as [|w ws]; [exact H|].
  cbn [SHA256.blocks]. apply IH. apply compress_length. exact H.
Qed.

(** The digest of the SHA-256 above is rendered as 64 lowercase
    hexadecimal characters, whatever the message. *)
Lemma sha256_hexdigest_shape (msg : string) :
  lower_hex_digest (SHA256.hexdigest msg) = true.
Proof.
  unfold lower_hex_digest, SHA256.hexdigest.
  destruct (concat_hex_shape (SHA256.digest (bytes_of_string msg))) as [Hl Ha].
  rewrite Hl, Ha. unfold SHA256.digest. rewrite blocks_length; reflexivity.
Qed.

(** ** Lists of blocks *)

Lemma last_block_app (chain : list Block) (b : Block) :
  last_block (chain ++ [b]) = Some b.
Proof.
  induction chain as [|a rest IH]; [reflexivity|].
  simpl. destruct (rest ++ [b])%list eqn:E; [|exact IH].
  destruct rest; discriminate.
Qed.

Lemma last_block_some (chain : list Block) :
  chain <> [] -> exists last, last_block chain = Some last.
Proof.
  induction chain as [|a rest IH]; [congruence|]. intros _.
  destruct rest as [|b rest']; [exists a; reflexivity|].
  destruct IH as [last Hl]; [discriminate|].
  exists last. exact Hl.
Qed.

Lemma contiguous_from_app (i : Z) (chain : list Block) (b : Block) :
  contiguous_from i (chain ++ [b])
  = contiguous_from i chain && (index b =? i + Z.of_nat (List.length chain)).
Proof.
  revert i. induction chain as [|a rest IH]; intro i.
  - simpl. rewrite Z.add_0_r, andb_true_r. reflexivity.
  - cbn [app contiguous_from List.length]. rewrite IH, andb_assoc.
    replace (i + 1 + Z.of_nat (List.length rest))
      with (i + Z.of_nat (S (List.length rest))) by lia.
    reflexivity.
Qed.

Lemma contiguous_from_last (i : Z) (chain : list Block) (last : Block) :
  contiguous_from i chain = true -> last_block chain = Some last ->
  index last = i + Z.of_nat (List.length chain) - 1.
Proof.
  revert i. induction chain as [|a rest IH]; intros i Hc Hl; [discriminate|].
  cbn [contiguous_from] in Hc. apply andb_true_iff in Hc as [Ha Hrest].
  destruct rest as [|b rest'].
  - injection Hl as <-. apply Z.eqb_eq in Ha. simpl. lia.
  - specialize (IH (i + 1) Hrest Hl). cbn [List.length] in *. lia.
Qed.

(** [contiguous] is the specification's [chain[i].index == i]. *)
Lemma contiguous_from_nth (i : Z) (chain : list Block) :
  contiguous_from i chain = true <->
  forall k b, nth_error chain k = Some b -> index b = i + Z.of_nat k.
Proof.
  revert i. induction chain as [|a rest IH]; intro i.
  - split; [intros _ [|k] b H; discriminate | reflexivity].
  - cbn [contiguous_from]. rewrite andb_true_iff, Z.eqb_eq, IH. split.
    + intros [Ha Hrest] [|k] b H.
      * injection H as <-. lia.
      * rewrite (Hrest k b H). lia.
    + intro H. split.
      * rewrite (H 0%nat a eq_refl). lia.
      * intros k b Hk. rewrite (H (S k) b Hk). lia.
Qed.

Lemma linked_app (chain : list Block) (b : Block) :
  linked (chain ++ [b])
  = linked chain && match last_block chain with
                    | Some last => String.eqb (prev_hash b) (hash last)
                    | None => true
                    end.
Proof.
  induction chain as [|a rest IH]; [reflexivity|].
  destruct rest as [|c rest'].
  - simpl. rewrite andb_true_r. reflexivity.
  - change (linked ((a :: c :: rest') ++ [b]))
      with (String.eqb (prev_hash c) (hash a) && linked ((c :: rest') ++ [b])).
    rewrite IH, andb_assoc. reflexivity.
Qed.

(** [linked] is the specification's [chain[i].prevHash == chain[i-1].hash]. *)
Lemma linked_nth (chain : list Block) :
  linked chain = true <->
  forall k a b, nth_error chain k = Some a -> nth_error chain (S k) = Some b ->
                prev_hash b = hash a.
Proof.
  induction chain as [|a rest IH].
  - split; [intros _ [|k] x y H; discriminate | reflexivity].
  - destruct rest as [|c rest'].
    + split; [|reflexivity]. intros _ [|k] x y H1 H2; [discriminate|].
      destruct k; discriminate.
    + change (linked (a :: c :: rest'))
        with (String.eqb (prev_hash c) (hash a) && linked (c :: rest')).
      rewrite andb_true_iff, String.eqb_eq, IH. split.
      * intros [Hac Hrest] [|k] x y H1 H2.
        -- injection H1 as <-. injection H2 as <-. exact Hac.
        -- exact (Hrest k x y H1 H2).
      * intro H. split.
        -- exact (H 0%nat a c eq_refl eq_refl).
        -- intros k x y H1 H2. exact (H (S k) x y H1 H2).
Qed.

Lemma well_formed_parts (chain : list Block) :
  well_formed chain = true ->
  chain <> [] /\ contiguous chain = true /\ linked chain = true.
Proof.
  unfold well_formed. intro H.
  apply andb_true_iff in H as [H Hl]. apply andb_true_iff in H as [Hn Hc].
  repeat split; try assumption.
  intros ->. discriminate.
Qed.

(** ** [add_block] on a stored chain *)

Lemma add_block_stored (now0 now : float) (event_type : string) (payload : json)
    (chain : list Block) (last : Block) :
  last_block chain = Some last ->
  add_block now0 now event_type payload (Stored chain)
  = (Ok (new_block now event_type payload last),
     Stored (chain ++ [new_block now event_type payload last])).
Proof.
  intro Hl. unfold add_block, add_block_on. rewrite Hl. reflexivity.
Qed.

Lemma add_block_missing (now0 now : float) (event_type : string) (payload : json) :
  add_block now0 now event_type payload Missing
  = add_block now0 now event_type payload (init_ledger now0 Missing).
Proof. reflexivity. Qed.

Lemma new_block_keeps_well_formed (now : float) (event_type : string)
    (payload : json) (chain : list Block) (last : Block) :
  well_formed chain = true -> last_block chain = Some last ->
  index last = Z.of_nat (List.length chain) - 1 /\
  contiguous (chain ++ [new_block now event_type payload last]) = true /\
  linked (chain ++ [new_block now event_type payload last]) = true /\
  well_formed (chain ++ [new_block now event_type payload last]) = true.
Proof.
  intros Hwf Hlast. destruct (well_formed_parts chain Hwf) as (Hne & Hc & Hl).
  assert (Hidx : index last = Z.of_nat (List.length chain) - 1).
  { rewrite (contiguous_from_last 0 chain last Hc Hlast). lia. }
  assert (Hc' : contiguous (chain ++ [new_block now event_type payload last]) = true).
  { unfold contiguous. rewrite contiguous_from_app. fold (contiguous chain).
    rewrite Hc. simpl. apply Z.eqb_eq. lia. }
  assert (Hl' : linked (chain ++ [new_block now event_type payload last]) = true).
  { rewrite linked_app, Hl, Hlast. simpl. apply String.eqb_refl. }
  repeat split; try assumption.
  unfold well_formed. rewrite Hc', Hl', length_app. simpl.
  rewrite Nat.add_1_r. reflexivity.
Qed.

(** C2.  On a well-formed stored chain [add_block] returns a block and
    leaves the chain with exactly that block added at the tail: the block's
    [index] is the old tail's plus one, its [prev_hash] is the old tail's
    [hash], the blocks written before are the same at the same positions,
    and the extended chain is again contiguous and linked. *)
Theorem add_block_extends_chain (now0 now : float) (event_type : string)
    (payload : json) (chain : list Block) :
  well_formed chain = true ->
  exists last block,
    last_block chain = Some last /\
    add_block now0 now event_type payload (Stored chain)
      = (Ok block, Stored (chain ++ [block])) /\
    index block = index last + 1 /\
    prev_hash block = hash last /\
    List.length (chain ++ [block]) = S (List.length chain) /\
    (forall i b, nth_error chain i = Some b ->
                 nth_error (chain ++ [block]) i = Some b) /\
    contiguous (chain ++ [block]) = true /\
    linked (chain ++ [block]) = true /\
    well_formed (chain ++ [block]) = true.
Proof.
  intro Hwf. destruct (well_formed_parts chain Hwf) as (Hne & _ & _).
  destruct (last_block_some chain Hne) as [last Hlast].
  destruct (new_block_keeps_well_formed now event_type payload chain last
              Hwf Hlast) as (_ & Hc' & Hl' & Hwf').
  exists last, (new_block now event_type payload last).
  repeat split; try assumption.
  - apply add_block_stored. exact Hlast.
  - rewrite length_app. simpl. lia.
  - intros i b Hb. rewrite nth_error_app1; [exact Hb|].
    apply nth_error_Some. congruence.
Qed.

(** C7.  Whenever [add_block] returns a block, that block's [data] is the
    dict holding the event type under ["event"] and the payload under
    ["payload"], and the block is the tail of the chain the file then
    holds; and [add_block] does return a block whenever the file is missing
    or holds a non-empty chain. *)
Theorem add_block_returns_tail (now0 now : float) (event_type : string)
    (payload : json) (file : ledger_file) :
  (forall block file',
     add_block now0 now event_type payload file = (Ok block, file') ->
     data block = JDict [("event", JStr event_type); ("payload", payload)] /\
     exists chain, file' = Stored chain /\ last_block chain = Some block) /\
  (file = Missing \/ (exists chain, file = Stored chain /\ chain <> []) ->
   exists block file',
     add_block now0 now event_type payload file = (Ok block, file')).
Proof.
  split.
  - intros block file' H. unfold add_block, add_block_on in H.
    destruct file as [|chain|text]; cbn in H.
    + injection H as <- <-. split; [reflexivity|].
      eexists. split; [reflexivity|]. reflexivity.
    + destruct (last_block chain) as [last|] eqn:Hl; [|discriminate].
      injection H as <- <-. split; [reflexivity|].
      eexists. split; [reflexivity|]. apply last_block_app.
    + discriminate.
  - intros [-> | (chain & -> & Hne)].
    + eexists. eexists. reflexivity.
    + destruct (last_block_some chain Hne) as [last Hl].
      eexists. eexists. apply add_block_stored. exact Hl.
Qed.

(** ** What every persisted file satisfies *)

Lemma hash_correct_app (chain : list Block) (b : Block) :
  hash_correct (chain ++ [b])
  = hash_correct chain && String.eqb (hash b) (recompute_hash b).
Proof.
  unfold hash_correct. rewrite forallb_app. simpl.
  rewrite andb_true_r. reflexivity.
Qed.

Lemma new_block_hash_correct (now : float) (event_type : string)
    (payload : json) (last : Block) :
  0 <= index last ->
  hash (new_block now event_type payload last)
  = recompute_hash (new_block now event_type payload last).
Proof.
  intro H. unfold recompute_hash. cbn [index new_block].
  destruct (index last + 1 =? 0) eqn:E; [apply Z.eqb_eq in E; lia|].
  reflexivity.
Qed.

Lemma init_ledger_invariant (now : float) (file : ledger_file) :
  chain_invariant file -> chain_invariant (init_ledger now file).
Proof.
  destruct file as [|chain|text]; cbn; try tauto.
  intros _. repeat split; try reflexivity; try discriminate.
  unfold hash_correct, recompute_hash. cbn. rewrite String.eqb_refl. reflexivity.
Qed.

Lemma add_block_stored_invariant (now0 now : float) (event_type : string)
    (payload : json) (chain : list Block) :
  chain_invariant (Stored chain) ->
  chain_invariant (snd (add_block now0 now event_type payload (Stored chain))).
Proof.
  intros (Hne & Hc & Hl & Hh).
  destruct (last_block_some chain Hne) as [last Hlast].
  rewrite (add_block_stored _ _ _ _ _ _ Hlast). cbn [snd chain_invariant].
  assert (Hidx : index last = Z.of_nat (List.length chain) - 1).
  { rewrite (contiguous_from_last 0 chain last Hc Hlast). lia. }
  assert (Hlen : (0 < List.length chain)%nat).
  { destruct chain; [congruence | simpl; lia]. }
  repeat split.
  - destruct chain; discriminate.
  - unfold contiguous. rewrite contiguous_from_app. fold (contiguous chain).
    rewrite Hc. simpl. apply Z.eqb_eq. lia.
  - rewrite linked_app, Hl, Hlast. simpl. apply String.eqb_refl.
  - rewrite hash_correct_app, Hh, new_block_hash_correct by lia.
    simpl. apply String.eqb_refl.
Qed.

Lemma persisted_invariant (file : ledger_file) :
  persisted file -> chain_invariant file.
Proof.
  induction 1 as [|now file _ IH|now0 now event_type payload file _ IH].
  - exact I.
  - apply init_ledger_invariant. exact IH.
  - destruct file as [|chain|text].
    + rewrite add_block_missing. apply add_block_stored_invariant.
      apply (init_ledger_invariant now0 Missing). exact I.
    + apply add_block_stored_invariant. exact IH.
    + destruct IH.
Qed.

(** Every chain the program persists is well formed. *)
Lemma persisted_well_formed (file : ledger_file) (chain : list Block) :
  persisted file -> file = Stored chain -> well_formed chain = true.
Proof.
  intros Hp ->. destruct (persisted_invariant _ Hp) as (Hne & Hc & Hl & _).
  unfold well_formed. rewrite Hc, Hl.
  destruct chain; [congruence | reflexivity].
Qed.

(** C1.  In every chain the program persists, each block's stored [hash]
    is what the block hasher gives on the block's own stored fields: for
    the block with index 0 the digest of the encoded [data] alone, for every
    other block the digest of the encoded [data] followed by the text of
    [timestamp] and by [prev_hash]; and the stored hash is a string of 64
    lowercase hexadecimal characters as soon as the digest function renders
    its digests so, which SHA-256's [hexdigest] does
    ([sha256_hexdigest_shape]). *)
Theorem persisted_hash_correct (file : ledger_file) (chain : list Block)
    (b : Block) :
  persisted file -> file = Stored chain -> In b chain ->
  hash b = recompute_hash b /\
  (index b = 0 -> hash b = sha256_hexdigest (dumps_sorted (data b))) /\
  (index b <> 0 ->
   hash b = sha256_hexdigest
              (dumps_sorted (data b) ++ float_repr (timestamp b) ++ prev_hash b)) /\
  ((forall text, lower_hex_digest (sha256_hexdigest text) = true) ->
   lower_hex_digest (hash b) = true).
Proof.
  intros Hp -> Hin.
  destruct (persisted_invariant _ Hp) as (_ & _ & _ & Hh).
  unfold hash_correct in Hh. rewrite forallb_forall in Hh.
  specialize (Hh b Hin). apply String.eqb_eq in Hh.
  split; [exact Hh|]. unfold recompute_hash in Hh.
  split; [|split].
  - intro Hi. rewrite Hi in Hh. exact Hh.
  - intro Hi. apply Z.eqb_neq in Hi. rewrite Hi in Hh. exact Hh.
  - intro Hshape. rewrite Hh. destruct (index b =? 0); apply Hshape.
Qed.

(** C10.  Two initialisations of a missing ledger, at any two clock
    readings, write genesis blocks with the same [hash], [prev_hash],
    [data] and [index]; the hash is the digest of the encoded
    [{"genesis": true}] alone, and the only field that follows the clock is
    [timestamp]. *)
Theorem genesis_hash_independent_of_time (now1 now2 : float) :
  exists g1 g2,
    init_ledger now1 Missing = Stored [g1] /\
    init_ledger now2 Missing = Stored [g2] /\
    hash g1 = hash g2 /\
    prev_hash g1 = prev_hash g2 /\
    data g1 = data g2 /\
    index g1 = index g2 /\
    hash g1 = sha256_hexdigest (dumps_sorted (JDict [("genesis", JBool true)])) /\
    timestamp g1 = now1 /\ timestamp g2 = now2.
Proof.
  do 2 eexists. repeat split.
Qed.

(** ** Reading the ledger *)

Lemma slice_from_last (limit : Z) {A : Type} (l : list A) :
  0 < limit ->
  slice_from (- limit) l = skipn (List.length l - Z.to_nat limit) l.
Proof.
  intro H. unfold slice_from.
  destruct (- limit <? 0) eqn:E; [|apply Z.ltb_ge in E; lia].
  f_equal. lia.
Qed.

(** X4.  For a limit of at least 1 the response holds the last [limit]
    blocks of the chain (all of them when the chain is shorter), in chain
    order. *)
Lemma api_ledger_positive_limit (limit : Z) (chain : list Block) :
  0 < limit ->
  exists window,
    api_ledger limit (Stored chain) = Ok window /\
    Z.of_nat (List.length window) = Z.min limit (Z.of_nat (List.length chain)) /\
    exists older, chain = older ++ window.
Proof.
  intro H. exists (skipn (List.length chain - Z.to_nat limit) chain).
  split; [|split].
  - unfold api_ledger. rewrite slice_from_last by exact H. reflexivity.
  - rewrite length_skipn. lia.
  - exists (firstn (List.length chain - Z.to_nat limit) chain).
    symmetry. apply firstn_skipn.
Qed.

(** C5.  With [limit = 0] the slice [chain[-0:]] is the whole chain: the
    response holds every block, not at most zero of them; and a negative
    limit drops that many of the oldest blocks instead of bounding the
    answer. *)
Theorem api_ledger_zero_limit (chain : list Block) :
  api_ledger 0 (Stored chain) = Ok chain /\
  forall b, api_ledger (-1) (Stored (b :: chain)) = Ok chain.
Proof.
  split.
  - unfold api_ledger, slice_from. simpl.
    rewrite Z.min_l by lia. reflexivity.
  - intro b. unfold api_ledger, slice_from. cbn [Z.opp Z.ltb Z.compare].
    cbn [List.length]. rewrite Z.min_l by lia. reflexivity.
Qed.

(** C6 (as amended).  Without a ledger file, [add_block] first writes the
    genesis block and then appends to it, while [api_ledger] answers with
    an empty chain for every limit; once [init_ledger] has run on the
    missing file, [api_ledger(50)] answers with exactly the genesis block:
    index 0, data [{"genesis": true}] and a [prev_hash] of 64 zeros. *)
Theorem bootstrap_of_missing_ledger (now0 now : float) (event_type : string)
    (payload : json) :
  (exists g b,
     init_ledger now0 Missing = Stored [g] /\
     add_block now0 now event_type payload Missing = (Ok b, Stored [g; b]) /\
     index b = 1 /\ prev_hash b = hash g) /\
  (forall limit, api_ledger limit Missing = Ok []) /\
  (exists g,
     api_ledger 50 (init_ledger now0 Missing) = Ok [g] /\
     index g = 0 /\
     data g = JDict [("genesis", JBool true)] /\
     prev_hash g
     = "0000000000000000000000000000000000000000000000000000000000000000" /\
     String.length (prev_hash g) = 64%nat).
Proof.
  split; [|split].
  - do 2 eexists. repeat split.
  - reflexivity.
  - eexists. repeat split.
Qed.

(** ** The telemetry loop *)

(** C8.  A reading is anomalous exactly when its tamper flag is set or its
    temperature is strictly below 2 or strictly above 30.  On an anomalous
    reading the loop body calls [add_block] once, with event type ["ALERT"]
    and a payload made of the shipment id, the temperature, the tamper flag
    and the time text, so a stored non-empty chain grows by exactly that
    one block; on any other reading the ledger is left as it was. *)
Theorem simulation_body_alerts (d : draw) (sid : string) (s : system) :
  let r := sampled d in
  let payload := JDict [ ("shipment_id", JStr sid); ("temp", JFloat (temp r));
                         ("tamper", JBool (tamper r)); ("ts", JStr (alert_ts d)) ] in
  (anomalous r = true <->
   tamper r = true \/ PrimFloat.ltb (temp r) 2 = true
   \/ PrimFloat.ltb 30 (temp r) = true) /\
  (anomalous r = true ->
   ledger (snd (simulation_body d sid s))
   = snd (add_block (clock0 d) (clock d) "ALERT" payload (ledger s)) /\
   forall chain, ledger s = Stored chain -> chain <> [] ->
     exists block,
       ledger (snd (simulation_body d sid s)) = Stored (chain ++ [block]) /\
       data block = JDict [("event", JStr "ALERT"); ("payload", payload)] /\
       fst (simulation_body d sid s) = Ok tt) /\
  (anomalous r = false ->
   ledger (snd (simulation_body d sid s)) = ledger s /\
   fst (simulation_body d sid s) = Ok tt).
Proof.
  cbv zeta. split; [|split].
  - unfold anomalous. rewrite !orb_true_iff. tauto.
  - intro Ha. unfold simulation_body. rewrite Ha. unfold alert_payload.
    split.
    + destruct (add_block _ _ _ _ _) as [res file]. reflexivity.
    + intros chain Hs Hne. rewrite Hs.
      destruct (last_block_some chain Hne) as [last Hl].
      rewrite (add_block_stored _ _ _ _ _ _ Hl). cbn [snd fst ledger].
      eexists. split; [reflexivity|]. split; reflexivity.
  - intro Ha. unfold simulation_body. rewrite Ha. split; reflexivity.
Qed.

(** ** The simulation controller *)

Lemma insert_shipment_keeps (now sid batch : string) (table : list shipment_row)
    (x : string) :
  existsb (fun r => String.eqb (shipment_id r) x) table = true ->
  existsb (fun r => String.eqb (shipment_id r) x)
          (insert_shipment now sid batch table) = true.
Proof.
  intro H. unfold insert_shipment.
  destruct (existsb (fun r => String.eqb (shipment_id r) sid) table); [exact H|].
  rewrite existsb_app, H. reflexivity.
Qed.

Lemma insert_shipment_has (now sid batch : string) (table : list shipment_row) :
  existsb (fun r => String.eqb (shipment_id r) sid)
          (insert_shipment now sid batch table) = true.
Proof.
  unfold insert_shipment.
  destruct (existsb (fun r => String.eqb (shipment_id r) sid) table) eqn:E;
    [exact E|].
  rewrite existsb_app. simpl. rewrite String.eqb_refl, orb_true_r. reflexivity.
Qed.

Lemma register_roster_has (utc : nat -> string) (ps : list (nat * string))
    (table : list shipment_row) (x : string) :
  existsb (fun r => String.eqb (shipment_id r) x) table = true
  \/ In x (map snd ps) ->
  existsb (fun r => String.eqb (shipment_id r) x)
    (fold_left (fun table p =>
                  insert_shipment (utc (fst p)) (snd p)
                                  ("BATCH-SIM-" ++ last_char (snd p)) table)
               ps table) = true.
Proof.
  revert table. induction ps as [|p ps IH]; intros table H.
  - destruct H as [H|[]]. exact H.
  - cbn [fold_left]. apply IH. destruct H as [H|[H|H]].
    + left. apply insert_shipment_keeps. exact H.
    + left. subst x. apply insert_shipment_has.
    + right. exact H.
Qed.

Lemma py_range_nth (lo hi : Z) (k : nat) :
  (k < Z.to_nat (hi - lo))%nat ->
  nth_error (py_range lo hi) k = Some (lo + Z.of_nat k).
Proof.
  intro H. unfold py_range. rewrite nth_error_map, nth_error_seq.
  destruct (Nat.ltb_spec k (Z.to_nat (hi - lo))) as [_|Hge]; [|lia].
  reflexivity.
Qed.

Lemma length_py_range (lo hi : Z) :
  List.length (py_range lo hi) = Z.to_nat (hi - lo).
Proof. unfold py_range. rewrite length_map, length_seq. reflexivity. Qed.

Lemma map_snd_combine_seq {A : Type} (l : list A) (k : nat) :
  map snd (combine (seq k (List.length l)) l) = l.
Proof.
  revert k. induction l as [|x l IH]; intro k; [reflexivity|].
  cbn [List.length seq combine map snd]. f_equal. apply IH.
Qed.

(** C9.  While the simulation thread is alive, [api_simulate_start] raises
    the HTTP error and returns the state untouched: no thread is added, no
    shipment row is written and the stop flag keeps its value.  Otherwise
    it answers with the roster [SHIP-SIM-1 .. SHIP-SIM-<shipment_count>],
    registers every roster entry, clears the stop flag and starts exactly
    one thread, which runs the loop on that roster and is the new
    [sim_thread]. *)
Theorem api_simulate_start_guard (utc : nat -> string) (shipment_count : Z)
    (interval_sec : float) (s : system) :
  (running s = true ->
   api_simulate_start utc shipment_count interval_sec s
   = (Raise (HTTPException 400 "Simulation already running"), s)) /\
  (running s = false ->
   exists roster s',
     api_simulate_start utc shipment_count interval_sec s = (Ok roster, s') /\
     List.length roster = Z.to_nat shipment_count /\
     (forall n, 1 <= n <= shipment_count ->
        nth_error roster (Z.to_nat (n - 1)) = Some ("SHIP-SIM-" ++ str_int n)%string) /\
     (forall sid, In sid roster ->
        existsb (fun r => String.eqb (shipment_id r) sid) (shipments s') = true) /\
     threads s' = threads s ++ [ {| thread_shipment_ids := roster;
                                    thread_interval := interval_sec;
                                    alive := true |} ] /\
     sim_thread s' = Some (List.length (threads s)) /\
     running s' = true /\
     sim_stop_event s' = false /\
     ledger s' = ledger s).
Proof.
  split; intro Hr; unfold api_simulate_start; rewrite Hr; [reflexivity|].
  do 2 eexists. split; [reflexivity|]. cbn [shipments threads sim_thread
    sim_stop_event ledger].
  repeat split.
  - rewrite length_map, length_py_range. lia.
  - intros n Hn. rewrite nth_error_map, py_range_nth by lia.
    cbn [option_map]. replace (1 + Z.of_nat (Z.to_nat (n - 1))) with n by lia.
    reflexivity.
  - intros sid Hin. apply register_roster_has. right.
    rewrite map_snd_combine_seq. exact Hin.
  - unfold running. cbn [sim_thread threads].
    rewrite nth_error_app2 by lia. rewrite Nat.sub_diag. reflexivity.
Qed.

(** ** Failing storage *)

Lemma overwrite_nothing (old new : string) : overwrite old new 0 = old.
Proof. unfold overwrite. destruct new; destruct old; reflexivity. Qed.

(** C4 (as amended).  When the disk fails while [add_block] has the ledger
    open, the call raises and returns no block.  The stored chain is
    untouched when the failure is in opening or reading the file, or comes
    before the first byte is written; a failure later in the write leaves
    the old text overwritten in place up to the point of failure, which
    is the old chain, the new chain or a torn file. *)
Theorem add_block_on_failing_disk (io : disk) (now0 now : float)
    (event_type : string) (payload : json) (chain : list Block) :
  io <> Healthy -> chain <> [] ->
  exists e file',
    add_block_on io now0 now event_type payload (Stored chain)
      = (Raise e, file') /\
    (io = OpenFails \/ io = ReadFails \/ io = WriteFails 0 ->
     file' = Stored chain) /\
    (forall k last, io = WriteFails k -> last_block chain = Some last ->
       let block := new_block now event_type payload last in
       file' = Stored chain \/ file' = Stored (chain ++ [block]) \/
       file' = Torn (overwrite (dump_chain chain)
                               (dump_chain (chain ++ [block])) k)).
Proof.
  intros Hio Hne. destruct (last_block_some chain Hne) as [last Hl].
  unfold add_block_on. rewrite Hl.
  destruct io as [| | |k]; [congruence| | |].
  - do 2 eexists. split; [reflexivity|]. split; [reflexivity|].
    intros; discriminate.
  - do 2 eexists. split; [reflexivity|]. split; [reflexivity|].
    intros; discriminate.
  - do 2 eexists. split; [reflexivity|]. split.
    + intros [H|[H|H]]; try discriminate. injection H as ->.
      unfold interrupted_write. rewrite overwrite_nothing, String.eqb_refl.
      reflexivity.
    + intros k' last' Hk Hl'. injection Hk as <-.
      assert (last' = last) as -> by congruence.
      cbv zeta. unfold interrupted_write.
      destruct (String.eqb _ (dump_chain chain)); [left; reflexivity|].
      destruct (String.eqb _ _); [right; left; reflexivity|].
      right; right; reflexivity.
Qed.

(** ** Interleaved calls of [add_block] *)

(** Both steps of a call, run without interruption, are [add_block]. *)
Lemma call_steps_are_add_block (now0 now : float) (event_type : string)
    (payload : json) (file : ledger_file) :
  let '(c1, file1) := call_step now0 now (Called event_type payload) file in
  call_step now0 now c1 file1
  = (match fst (add_block now0 now event_type payload file) with
     | Ok b => Returned b
     | Raise e => Raised e
     end,
     snd (add_block now0 now event_type payload file)).
Proof.
  unfold add_block, add_block_on.
  destruct file as [|chain|text]; cbn; try reflexivity.
  destruct (last_block chain); reflexivity.
Qed.

Lemma nth_error_middle {A : Type} (done : list A) (x : A) (rest : list A) :
  nth_error (done ++ x :: rest) (List.length done) = Some x.
Proof.
  rewrite nth_error_app2 by lia. rewrite Nat.sub_diag. reflexivity.
Qed.

Lemma replace_nth_middle {A : Type} (done : list A) (x y : A) (rest : list A) :
  replace_nth (List.length done) y (done ++ x :: rest) = done ++ y :: rest.
Proof.
  induction done as [|d done IH]; [reflexivity|].
  simpl. rewrite IH. reflexivity.
Qed.

Lemma turn_step_middle (done : list call_state) (c : call_state)
    (rest : list call_state) (file : ledger_file) (t0 t : float) :
  turn_step (done ++ c :: rest, file)
            {| who := List.length done; turn_clock0 := t0; turn_clock := t |}
  = (done ++ fst (call_step t0 t c file) :: rest, snd (call_step t0 t c file)).
Proof.
  unfold turn_step. cbn [fst snd who turn_clock0 turn_clock].
  rewrite nth_error_middle. destruct (call_step t0 t c file) as [c' file'].
  rewrite replace_nth_middle. reflexivity.
Qed.

Lemma contiguous_from_lower_bound (i : Z) (chain : list Block) (x : Z) :
  contiguous_from i chain = true -> In x (map index chain) -> i <= x.
Proof.
  revert i. induction chain as [|b rest IH]; intros i Hc Hin; [destruct Hin|].
  cbn [contiguous_from] in Hc. apply andb_true_iff in Hc as [Hb Hrest].
  apply Z.eqb_eq in Hb. destruct Hin as [Hx|Hx]; [lia|].
  specialize (IH (i + 1) Hrest Hx). lia.
Qed.

Lemma contiguous_from_NoDup (i : Z) (chain : list Block) :
  contiguous_from i chain = true -> NoDup (map index chain).
Proof.
  revert i. induction chain as [|b rest IH]; intros i Hc; [constructor|].
  cbn [contiguous_from] in Hc. apply andb_true_iff in Hc as [Hb Hrest].
  apply Z.eqb_eq in Hb. cbn [map]. constructor.
  - intro Hin. pose proof (contiguous_from_lower_bound _ _ _ Hrest Hin). lia.
  - exact (IH _ Hrest).
Qed.

Lemma run_serial (calls : list (string * json)) :
  forall (clocks : list (float * float)) (done : list call_state)
         (chain : list Block),
    well_formed chain = true ->
    List.length clocks = List.length calls ->
    exists blocks,
      run (serial (List.length done) clocks)
          (done ++ map (fun c => Called (fst c) (snd c)) calls, Stored chain)
      = (done ++ map Returned blocks, Stored (chain ++ blocks)) /\
      List.length blocks = List.length calls /\
      well_formed (chain ++ blocks) = true.
Proof.
  induction calls as [|[event_type payload] calls IH];
    intros clocks done chain Hwf Hlen.
  - destruct clocks; [|discriminate]. exists []. cbn.
    rewrite !app_nil_r. repeat split. exact Hwf.
  - destruct clocks as [|[t0 t] clocks]; [discriminate|].
    injection Hlen as Hlen.
    destruct (well_formed_parts chain Hwf) as (Hne & _ & _).
    destruct (last_block_some chain Hne) as [last Hl].
    destruct (new_block_keeps_well_formed t event_type payload chain last
                Hwf Hl) as (_ & _ & _ & Hwf').
    set (block := new_block t event_type payload last) in *.
    destruct (IH clocks (done ++ [Returned block]) (chain ++ [block])
                Hwf' Hlen) as (blocks & Hrun & Hb & Hwfb).
    exists (block :: blocks). split; [|split].
    + cbn [serial run fold_left map fst snd].
      rewrite turn_step_middle. cbn [call_step fst snd].
      rewrite turn_step_middle. cbn [call_step fst snd]. rewrite Hl.
      cbn [fst snd]. fold block.
      rewrite length_app, Nat.add_1_r in Hrun.
      rewrite <- !app_assoc in Hrun. exact Hrun.
    + simpl. rewrite Hb. reflexivity.
    + rewrite <- app_assoc in Hwfb. exact Hwfb.
Qed.

(** C3 (as amended).  [add_block] takes no lock.  When K calls run one
    after the other, each finishing before the next starts, every call
    returns a block and the chain is extended by exactly those K blocks,
    in call order: the chain stays well formed, the new blocks carry the
    next K indices, and no two blocks of the chain share an index. *)
Theorem serial_appends_extend_chain (calls : list (string * json))
    (clocks : list (float * float)) (chain : list Block) :
  well_formed chain = true ->
  List.length clocks = List.length calls ->
  exists blocks,
    run (serial 0 clocks)
        (map (fun c => Called (fst c) (snd c)) calls, Stored chain)
    = (map Returned blocks, Stored (chain ++ blocks)) /\
    List.length blocks = List.length calls /\
    well_formed (chain ++ blocks) = true /\
    (forall k b, nth_error blocks k = Some b ->
                 index b = Z.of_nat (List.length chain + k)) /\
    NoDup (map index (chain ++ blocks)).
Proof.
  intros Hwf Hlen.
  destruct (run_serial calls clocks [] chain Hwf Hlen) as (blocks & Hrun & Hb & Hwfb).
  exists blocks. destruct (well_formed_parts _ Hwfb) as (_ & Hc & _).
  repeat split; try assumption.
  - intros k b Hk. unfold contiguous in Hc.
    rewrite contiguous_from_nth in Hc.
    rewrite (Hc (List.length chain + k)%nat b); [lia|].
    rewrite nth_error_app2 by lia.
    replace (List.length chain + k - List.length chain)%nat with k by lia.
    exact Hk.
  - exact (contiguous_from_NoDup 0 _ Hc).
Qed.

(** ** Key order of the hashed text *)

Lemma ascii_compare_trans (x y z : ascii) :
  Ascii.compare x y <> Gt -> Ascii.compare y z <> Gt ->
  Ascii.compare x z <> Gt /\
  (Ascii.compare x z = Eq -> Ascii.compare x y = Eq /\ Ascii.compare y z = Eq).
Proof.
  unfold Ascii.compare.
  destruct (N.compare_spec (N_of_ascii x) (N_of_ascii y));
    destruct (N.compare_spec (N_of_ascii y) (N_of_ascii z));
    destruct (N.compare_spec (N_of_ascii x) (N_of_ascii z));
    intros; split; intros; try split; try congruence; lia.
Qed.

Lemma string_leb_trans (a b c : string) :
  String.leb a b = true -> String.leb b c = true -> String.leb a c = true.
Proof.
  unfold String.leb. revert b c.
  induction a as [|x a IH]; intros [|y b] [|z c]; simpl; try congruence.
  specialize (IH b c).
  destruct (Ascii.compare x y) eqn:Exy; try congruence;
    destruct (Ascii.compare y z) eqn:Eyz; try congruence;
    destruct (ascii_compare_trans x y z) as [Hle Heq];
    try congruence;
    destruct (Ascii.compare x z) eqn:Exz; try congruence;
    try (destruct (Heq eq_refl); congruence).
  - exact IH.
Qed.

Lemma insert_item_comm {A : Type} (x y : string * A) (l : list (string * A)) :
  fst x <> fst y ->
  insert_item x (insert_item y l) = insert_item y (insert_item x l).
Proof.
  intro Hxy. induction l as [|c l IH].
  - simpl. destruct (String.leb (fst x) (fst y)) eqn:Exy;
      destruct (String.leb (fst y) (fst x)) eqn:Eyx; try reflexivity.
    + destruct Hxy. apply String.leb_antisym; assumption.
    + destruct (String.leb_total (fst x) (fst y)); congruence.
  - cbn [insert_item].
    destruct (String.leb (fst y) (fst c)) eqn:Eyc;
      destruct (String.leb (fst x) (fst c)) eqn:Exc; cbn [insert_item].
    + rewrite Exc, Eyc.
      destruct (String.leb (fst x) (fst y)) eqn:Exy;
        destruct (String.leb (fst y) (fst x)) eqn:Eyx; try reflexivity.
      * destruct Hxy. apply String.leb_antisym; assumption.
      * destruct (String.leb_total (fst x) (fst y)); congruence.
    + rewrite Exc, Eyc.
      destruct (String.leb (fst x) (fst y)) eqn:Exy; [|reflexivity].
      rewrite (string_leb_trans _ _ _ Exy Eyc) in Exc. discriminate.
    + rewrite Exc, Eyc.
      destruct (String.leb (fst y) (fst x)) eqn:Eyx; [|reflexivity].
      rewrite (string_leb_trans _ _ _ Eyx Exc) in Eyc. discriminate.
    + rewrite Exc, Eyc, IH. reflexivity.
Qed.

Lemma sorted_items_permutation {A : Type} (l1 l2 : list (string * A)) :
  Permutation l1 l2 -> NoDup (map fst l1) ->
  sorted_items l1 = sorted_items l2.
Proof.
  unfold sorted_items. induction 1 as [|x l1 l2 Hp IH|x y l|l1 l2 l3 H12 IH12 H23 IH23];
    intro Hnd.
  - reflexivity.
  - cbn [fold_right]. rewrite IH; [reflexivity|].
    cbn [map] in Hnd. inversion Hnd. assumption.
  - cbn [fold_right]. apply insert_item_comm.
    cbn [map] in Hnd. inversion Hnd as [|? ? Hin _]. subst.
    intro Heq. apply Hin. left. symmetry. exact Heq.
  - rewrite IH12 by exact Hnd. apply IH23.
    apply (Permutation_NoDup (Permutation_map fst H12)). exact Hnd.
Qed.

(** X6.  The text that gets hashed does not depend on the order in which
    the keys of a dict were inserted: two dicts with the same items and
    distinct keys have the same [json.dumps(.., sort_keys=True)], so
    [add_block] gives the same hash for a payload whatever order its keys
    were written in. *)
Theorem hashed_text_ignores_key_order (items1 items2 : list (string * json))
    (now : float) (event_type : string) (last : Block) :
  Permutation items1 items2 -> NoDup (map fst items1) ->
  dumps_sorted (JDict items1) = dumps_sorted (JDict items2) /\
  hash (new_block now event_type (JDict items1) last)
  = hash (new_block now event_type (JDict items2) last).
Proof.
  intros Hp Hnd.
  assert (Hlevel : forall level,
            encode None true level (JDict items1)
            = encode None true level (JDict items2)).
  { intro level. destruct items1 as [|x1 r1].
    - apply Permutation_nil in Hp. subst. reflexivity.
    - destruct items2 as [|x2 r2].
      + apply Permutation_sym, Permutation_nil in Hp. discriminate.
      + cbn [encode].
        rewrite (sorted_items_permutation
                   (map (fun kv => (fst kv, encode None true (S level) (snd kv)))
                        (x1 :: r1))
                   (map (fun kv => (fst kv, encode None true (S level) (snd kv)))
                        (x2 :: r2))); [reflexivity| |].
        * apply (Permutation_map
                   (fun kv => (fst kv, encode None true (S level) (snd kv)))).
          exact Hp.
        * rewrite map_map. cbn [fst]. exact Hnd. }
  split; [apply Hlevel|].
  unfold new_block. cbn [hash]. unfold dumps_sorted. cbn [encode].
  cbn [map fst snd]. rewrite (Hlevel 1%nat). reflexivity.
Qed.

(** ** More on the ledger *)

Lemma persisted_genesis_first (file : ledger_file) :
  persisted file ->
  match file with
  | Stored chain =>
      exists g rest, chain = g :: rest /\ index g = 0 /\
        data g = genesis_data /\ prev_hash g = str_mul "0" 64 /\
        hash g = sha256_hexdigest (dumps_sorted genesis_data)
  | _ => True
  end.
Proof.
  induction 1 as [|now file _ IH|now0 now event_type payload file Hp IH].
  - exact I.
  - destruct file as [|chain|text]; cbn; try exact IH.
    do 2 eexists. repeat split.
  - destruct file as [|chain|text].
    + cbn. do 2 eexists. repeat split.
    + pose proof (persisted_invariant _ Hp) as (Hne & _).
      destruct (last_block_some chain Hne) as [last Hl].
      rewrite (add_block_stored _ _ _ _ _ _ Hl). cbn [snd].
      destruct IH as (g & rest & -> & Hg). exists g. eexists.
      split; [reflexivity | exact Hg].
    + destruct (persisted_invariant _ Hp).
Qed.

(** X1.  Every chain the program persists is non-empty, contiguous and
    linked, and begins with the genesis block: index 0, data
    [{"genesis": true}], a [prev_hash] of 64 zeros and the digest of the
    encoded data as hash. *)
Theorem persisted_chain_shape (file : ledger_file) (chain : list Block) :
  persisted file -> file = Stored chain ->
  well_formed chain = true /\
  exists g rest,
    chain = g :: rest /\ index g = 0 /\
    data g = JDict [("genesis", JBool true)] /\
    prev_hash g
    = "0000000000000000000000000000000000000000000000000000000000000000"%string /\
    hash g = sha256_hexdigest (dumps_sorted (JDict [("genesis", JBool true)])).
Proof.
  intros Hp ->. split; [exact (persisted_well_formed _ _ Hp eq_refl)|].
  exact (persisted_genesis_first _ Hp).
Qed.

(** X2.  The ledger is append-only: whatever calls of [init_ledger] and
    [add_block] follow, a stored non-empty chain stays in place as the
    beginning of the stored chain, and the chain grows by exactly one block
    for each [add_block] call. *)
Theorem ledger_run_append_only (calls : list ledger_call) (chain : list Block) :
  chain <> [] ->
  exists suffix,
    ledger_run calls (Stored chain) = Stored (chain ++ suffix) /\
    List.length suffix = List.length (filter is_append calls).
Proof.
  revert chain. unfold ledger_run.
  induction calls as [|c calls IH]; intros chain Hne.
  - exists []. rewrite app_nil_r. split; reflexivity.
  - destruct c as [now|now0 now event_type payload]; cbn [fold_left ledger_step].
    + cbn [init_ledger filter is_append]. exact (IH chain Hne).
    + destruct (last_block_some chain Hne) as [last Hl].
      rewrite (add_block_stored _ _ _ _ _ _ Hl). cbn [snd].
      destruct (IH (chain ++ [new_block now event_type payload last]))
        as (suffix & Hrun & Hlen).
      { destruct chain; discriminate. }
      exists (new_block now event_type payload last :: suffix).
      rewrite Hrun, <- app_assoc. split; [reflexivity|].
      cbn [filter is_append List.length]. rewrite Hlen. reflexivity.
Qed.



Lemma slice_from_tail {A : Type} (limit : Z) (l : list A) (x : A) :
  0 < limit ->
  exists older, slice_from (- limit) (l ++ [x]) = older ++ [x].
Proof.
  intro H. rewrite slice_from_last by exact H.
  rewrite length_app. cbn [List.length].
  exists (skipn (List.length l + 1 - Z.to_nat limit) l).
  rewrite skipn_app.
  replace (List.length l + 1 - Z.to_nat limit - List.length l)%nat with 0%nat by lia.
  reflexivity.
Qed.

Lemma slice_from_one {A : Type} (l : list A) (x : A) :
  slice_from (-1) (l ++ [x]) = [x].
Proof.
  change (-1) with (- (1)).
  rewrite slice_from_last by lia. rewrite length_app. cbn [List.length].
  replace (List.length l + 1 - Z.to_nat 1)%nat with (List.length l) by lia.
  rewrite skipn_app, skipn_all, Nat.sub_diag. reflexivity.
Qed.

Lemma add_block_ok_inv (now0 now : float) (event_type : string)
    (payload : json) (file file' : ledger_file) (block : Block) :
  add_block now0 now event_type payload file = (Ok block, file') ->
  exists chain,
    file' = Stored (chain ++ [block]) /\
    data block = JDict [("event", JStr event_type); ("payload", payload)].
Proof.
  unfold add_block, add_block_on. intro H.
  destruct file as [|c|t]; cbn in H.
  - injection H as <- <-. eexists [_]. split; reflexivity.
  - destruct (last_block c); [|discriminate]. injection H as <- <-.
    exists c. split; reflexivity.
  - discriminate.
Qed.

(** X5.  A batch registration can be read back at once: when
    [register_batch] returns a block, that block records the batch id and
    the manufacturer under the event ["REGISTER_BATCH"], [api_ledger(1)]
    answers with exactly that block, and for every limit of at least 1 it
    is the last block of the answer. *)
Theorem register_batch_then_read (now0 now : float)
    (batch manufacturer : string) (file file' : ledger_file) (block : Block) :
  register_batch now0 now batch manufacturer file = (Ok block, file') ->
  data block
  = JDict [ ("event", JStr "REGISTER_BATCH");
            ("payload", JDict [ ("batch_id", JStr batch);
                                ("manufacturer", JStr manufacturer) ]) ] /\
  api_ledger 1 file' = Ok [block] /\
  forall limit, 0 < limit ->
    exists older, api_ledger limit file' = Ok (older ++ [block]).
Proof.
  unfold register_batch. intro H.
  destruct (add_block_ok_inv _ _ _ _ _ _ _ H) as (chain & -> & Hd).
  split; [exact Hd|]. split.
  - unfold api_ledger. rewrite slice_from_one. reflexivity.
  - intros limit Hl. unfold api_ledger.
    destruct (slice_from_tail limit chain block Hl) as [older Ho].
    exists older. rewrite Ho. reflexivity.
Qed.

(** ** The tables *)

Lemma existsb_shipment_id (sid : string) (table : list shipment_row) :
  existsb (fun r => String.eqb (shipment_id r) sid) table = true <->
  In sid (map shipment_id table).
Proof.
  rewrite existsb_exists, in_map_iff. split.
  - intros (r & Hin & He). apply String.eqb_eq in He. exists r. split; assumption.
  - intros (r & He & Hin). exists r. split; [exact Hin|].
    apply String.eqb_eq. exact He.
Qed.

Lemma insert_shipment_present (now sid batch : string)
    (table : list shipment_row) :
  existsb (fun r => String.eqb (shipment_id r) sid) table = true ->
  insert_shipment now sid batch table = table.
Proof. intro E. unfold insert_shipment. rewrite E. reflexivity. Qed.

Lemma insert_shipment_absent (now sid batch : string)
    (table : list shipment_row) :
  existsb (fun r => String.eqb (shipment_id r) sid) table = false ->
  insert_shipment now sid batch table
  = table ++ [ {| shipment_id := sid; batch_id := batch;
                  status := "In Transit"; created_at := now |} ].
Proof. intro E. unfold insert_shipment. rewrite E. reflexivity. Qed.

(** X7.  [insert_shipment] keeps the shipment ids distinct and never
    touches a row that is already there: a second insert for an id
    changes nothing, whatever batch it names, and a first insert puts the
    new row ahead of all others in [get_shipments]. *)
Theorem insert_shipment_first_wins (now sid batch : string)
    (table : list shipment_row) :
  NoDup (map shipment_id table) ->
  NoDup (map shipment_id (insert_shipment now sid batch table)) /\
  (forall r, In r table -> In r (insert_shipment now sid batch table)) /\
  (forall now' batch',
     insert_shipment now' sid batch' (insert_shipment now sid batch table)
     = insert_shipment now sid batch table) /\
  (In sid (map shipment_id table) ->
   get_shipments (insert_shipment now sid batch table) = get_shipments table) /\
  (~ In sid (map shipment_id table) ->
   get_shipments (insert_shipment now sid batch table)
   = {| shipment_id := sid; batch_id := batch; status := "In Transit";
        created_at := now |} :: get_shipments table).
Proof.
  intro Hnd.
  destruct (existsb (fun r => String.eqb (shipment_id r) sid) table) eqn:E.
  - pose proof (proj1 (existsb_shipment_id sid table) E) as Hin.
    rewrite (insert_shipment_present now sid batch table E).
    split; [exact Hnd|]. split; [intros r Hr; exact Hr|].
    split; [|split].
    + intros now' batch'. apply insert_shipment_present. exact E.
    + reflexivity.
    + intros Hn. contradiction.
  - assert (Hn : ~ In sid (map shipment_id table)).
    { intro Hin. apply existsb_shipment_id in Hin. congruence. }
    rewrite (insert_shipment_absent now sid batch table E).
    split; [|split; [|split; [|split]]].
    + rewrite map_app. cbn [map shipment_id].
      apply NoDup_app; [exact Hnd | repeat constructor; intros [] |].
      intros x Hx [<-|[]]. exact (Hn Hx).
    + intros r Hr. apply in_or_app. left. exact Hr.
    + intros now' batch'. apply insert_shipment_present.
      rewrite existsb_app. cbn [existsb shipment_id].
      rewrite String.eqb_refl, orb_true_r. reflexivity.
    + intro Hin. contradiction.
    + intros _. unfold get_shipments. rewrite rev_app_distr. reflexivity.
Qed.



Lemma firstn_rev_suffix {A : Type} (n : nat) (l : list A) :
  rev (firstn n (rev l)) = skipn (List.length l - n) l.
Proof. rewrite firstn_rev, rev_involutive. reflexivity. Qed.

(** X9.  [get_telemetry_latest] answers with the most recent rows of the
    shipment, oldest first: for a limit from 0 up it is the last [limit]
    rows of that shipment in insertion order (all of them if there are
    fewer, none for a limit of 0); a negative limit lifts the bound and
    gives every row of the shipment; a limit that does not fit 64 bits
    gives the error. *)
Theorem get_telemetry_latest_window (sid : string) (limit : Z)
    (table : list telemetry_row) :
  let mine := filter (fun r => String.eqb (t_shipment_id r) sid) table in
  (0 <= limit < 2 ^ 63 ->
   get_telemetry_latest sid limit table
   = Some (map point_of_row
             (skipn (List.length mine - Z.to_nat limit) mine))) /\
  (- 2 ^ 63 <= limit < 0 ->
   get_telemetry_latest sid limit table = Some (map point_of_row mine)) /\
  (limit < - 2 ^ 63 \/ 2 ^ 63 <= limit ->
   get_telemetry_latest sid limit table = None).
Proof.
  cbv zeta. unfold get_telemetry_latest, sql_limit. split; [|split]; intro H.
  - destruct ((limit <? - 2 ^ 63) || (2 ^ 63 <=? limit)) eqn:E.
    { apply orb_true_iff in E as [E|E]; [apply Z.ltb_lt in E | apply Z.leb_le in E]; lia. }
    destruct (limit <? 0) eqn:E0; [apply Z.ltb_lt in E0; lia|].
    rewrite firstn_rev_suffix. reflexivity.
  - destruct ((limit <? - 2 ^ 63) || (2 ^ 63 <=? limit)) eqn:E.
    { apply orb_true_iff in E as [E|E]; [apply Z.ltb_lt in E | apply Z.leb_le in E]; lia. }
    destruct (limit <? 0) eqn:E0; [|apply Z.ltb_ge in E0; lia].
    rewrite rev_involutive. reflexivity.
  - destruct ((limit <? - 2 ^ 63) || (2 ^ 63 <=? limit)) eqn:E; [reflexivity|].
    apply orb_false_iff in E as [E1 E2].
    apply Z.ltb_ge in E1. apply Z.leb_gt in E2. lia.
Qed.

(** X10.  Telemetry of one shipment is invisible to the queries for
    another: inserting a row for [other] leaves every answer of
    [get_telemetry_latest] for a different shipment as it was. *)
Theorem telemetry_isolated (now sid other : string) (r : reading) (limit : Z)
    (table : list telemetry_row) :
  other <> sid ->
  get_telemetry_latest sid limit (insert_telemetry now other r table)
  = get_telemetry_latest sid limit table.
Proof.
  intro Hne. unfold get_telemetry_latest, insert_telemetry.
  rewrite filter_app. cbn [filter t_shipment_id].
  apply String.eqb_neq in Hne. rewrite Hne, app_nil_r. reflexivity.
Qed.

(** ** A pass of the telemetry loop *)

Lemma simulation_body_stored (d : draw) (sid : string) (s : system)
    (chain : list Block) (last : Block) :
  ledger s = Stored chain -> last_block chain = Some last ->
  simulation_body d sid s
  = (Ok tt,
     {| ledger :=
          if anomalous (sampled d)
          then Stored (chain ++ [new_block (clock d) "ALERT"
                                   (alert_payload sid (sampled d) (alert_ts d))
                                   last])
          else Stored chain;
        shipments := shipments s;
        telemetry := insert_telemetry (row_ts d) sid (sampled d) (telemetry s);
        threads := threads s; sim_thread := sim_thread s;
        sim_stop_event := sim_stop_event s |}).
Proof.
  intros Hs Hl. unfold simulation_body. rewrite Hs.
  destruct (anomalous (sampled d)); [|reflexivity].
  rewrite (add_block_stored _ _ _ _ _ _ Hl). reflexivity.
Qed.

Lemma length_insert_telemetry (now sid : string) (r : reading)
    (table : list telemetry_row) :
  List.length (insert_telemetry now sid r table) = S (List.length table).
Proof. unfold insert_telemetry. rewrite length_app. simpl. lia. Qed.

(** X11.  One pass of the loop over a roster, on a well-formed stored
    chain, never fails: it records one telemetry row per shipment and
    appends one ALERT block per anomalous reading, nothing else; the chain
    it leaves is the old chain followed by those blocks and is again well
    formed, and the shipments table, the thread handle and the stop flag
    are not touched. *)
Theorem simulation_pass_appends_alerts (ids : list string) :
  forall (ds : list draw) (s : system) (chain : list Block),
    ledger s = Stored chain -> well_formed chain = true ->
    List.length ds = List.length ids ->
    exists alerts s',
      simulation_pass ds ids s = (Ok tt, s') /\
      ledger s' = Stored (chain ++ alerts) /\
      List.length alerts
      = List.length (filter (fun d => anomalous (sampled d)) ds) /\
      Forall (fun b => exists payload,
                data b = JDict [("event", JStr "ALERT"); ("payload", payload)])
             alerts /\
      well_formed (chain ++ alerts) = true /\
      List.length (telemetry s') = (List.length (telemetry s) + List.length ids)%nat /\
      shipments s' = shipments s /\ threads s' = threads s /\
      sim_thread s' = sim_thread s /\ sim_stop_event s' = sim_stop_event s.
Proof.
  induction ids as [|sid ids IH]; intros ds s chain Hs Hwf Hlen.
  - destruct ds; [|discriminate]. exists [], s. cbn [simulation_pass].
    rewrite app_nil_r, Nat.add_0_r. repeat split; try assumption. constructor.
  - destruct ds as [|d ds]; [discriminate|]. injection Hlen as Hlen.
    destruct (well_formed_parts chain Hwf) as (Hne & _ & _).
    destruct (last_block_some chain Hne) as [last Hl].
    cbn [simulation_pass]. rewrite (simulation_body_stored d sid s chain last Hs Hl).
    cbn [filter]. destruct (anomalous (sampled d)) eqn:Ha.
    + set (block := new_block (clock d) "ALERT"
                      (alert_payload sid (sampled d) (alert_ts d)) last).
      destruct (new_block_keeps_well_formed (clock d) "ALERT"
                  (alert_payload sid (sampled d) (alert_ts d)) chain last
                  Hwf Hl) as (_ & _ & _ & Hwf').
      fold block in Hwf'.
      match goal with |- context [simulation_pass ds ids ?s1] =>
        destruct (IH ds s1 (chain ++ [block]) eq_refl Hwf' Hlen)
          as (alerts & s' & Hp & Hled & Hn & Hall & Hwfa & Ht & Hsh & Hth & Hst & Hse)
      end.
      exists (block :: alerts), s'. cbn [shipments threads sim_thread
        sim_stop_event telemetry] in *.
      rewrite <- app_assoc in Hled, Hwfa. rewrite length_insert_telemetry in Ht.
      repeat split; try assumption.
      * cbn [List.length]. rewrite Hn. reflexivity.
      * constructor; [|exact Hall]. eexists. reflexivity.
      * cbn [List.length]. lia.
    + match goal with |- context [simulation_pass ds ids ?s1] =>
        destruct (IH ds s1 chain eq_refl Hwf Hlen)
          as (alerts & s' & Hp & Hled & Hn & Hall & Hwfa & Ht & Hsh & Hth & Hst & Hse)
      end.
      exists alerts, s'. cbn [shipments threads sim_thread
        sim_stop_event telemetry] in *.
      rewrite length_insert_telemetry in Ht.
      repeat split; try assumption. cbn [List.length]. lia.
Qed.

Lemma simulation_body_torn (d : draw) (sid : string) (s : system)
    (text : string) :
  ledger s = Torn text ->
  simulation_body d sid s
  = (if anomalous (sampled d) then Raise JSONDecodeError else Ok tt,
     {| ledger := Torn text; shipments := shipments s;
        telemetry := insert_telemetry (row_ts d) sid (sampled d) (telemetry s);
        threads := threads s; sim_thread := sim_thread s;
        sim_stop_event := sim_stop_event s |}).
Proof.
  intro Hs. unfold simulation_body. rewrite Hs.
  destruct (anomalous (sampled d)); reflexivity.
Qed.

(** X12.  With a ledger file that cannot be decoded, a pass works as long
    as the readings are normal and dies on the first anomalous one: the
    JSONDecodeError of [add_block] leaves the loop, after the telemetry
    row of that reading was recorded, and the shipments after it in the
    roster are not sampled in that pass. *)
Theorem simulation_pass_torn_ledger (ids : list string) :
  forall (ds : list draw) (s : system) (text : string),
    ledger s = Torn text -> List.length ds = List.length ids ->
    (forallb (fun d => negb (anomalous (sampled d))) ds = true ->
     exists s',
       simulation_pass ds ids s = (Ok tt, s') /\ ledger s' = Torn text /\
       List.length (telemetry s')
       = (List.length (telemetry s) + List.length ids)%nat) /\
    (forallb (fun d => negb (anomalous (sampled d))) ds = false ->
     exists s' normal d rest,
       simulation_pass ds ids s = (Raise JSONDecodeError, s') /\
       ledger s' = Torn text /\
       ds = normal ++ d :: rest /\
       forallb (fun d => negb (anomalous (sampled d))) normal = true /\
       anomalous (sampled d) = true /\
       List.length (telemetry s')
       = (List.length (telemetry s) + List.length normal + 1)%nat).
Proof.
  induction ids as [|sid ids IH]; intros ds s text Hs Hlen.
  - destruct ds; [|discriminate]. split; [|discriminate].
    intros _. exists s. cbn. rewrite Nat.add_0_r. repeat split. exact Hs.
  - destruct ds as [|d ds]; [discriminate|]. injection Hlen as Hlen.
    cbn [simulation_pass forallb].
    rewrite (simulation_body_torn d sid s text Hs).
    destruct (anomalous (sampled d)) eqn:Ha; cbn [negb andb].
    + split; [discriminate|]. intros _.
      eexists. exists [], d, ds. split; [reflexivity|].
      cbn [ledger telemetry forallb app List.length].
      rewrite length_insert_telemetry.
      repeat split; try assumption. lia.
    + match goal with |- context [simulation_pass ds ids ?s1] =>
        destruct (IH ds s1 text eq_refl Hlen) as [Hok Hbad]
      end.
      cbn [telemetry] in Hok, Hbad. rewrite length_insert_telemetry in Hok, Hbad.
      split; intro Hall.
      * destruct (Hok Hall) as (s' & Hp & Hl & Ht).
        exists s'. cbn [List.length]. repeat split; try assumption. lia.
      * destruct (Hbad Hall) as (s' & normal & d' & rest & Hp & Hl & -> & Hn & Hd & Ht).
        exists s', (d :: normal), d', rest. cbn [forallb app List.length].
        rewrite Ha. cbn [negb andb]. repeat split; try assumption. lia.
Qed.

(** ** Stop, start and startup *)

(** X13.  A stop request only raises the flag: the thread is still alive
    until it sees the flag, so a start that follows at once is rejected
    like any start during a run, and the flag stays raised; a second stop
    changes nothing.  When no thread is alive, a start after a stop clears
    the flag again and starts a thread. *)
Theorem stop_then_start (utc : nat -> string) (shipment_count : Z)
    (interval_sec : float) (s : system) :
  running (api_simulate_stop s) = running s /\
  api_simulate_stop (api_simulate_stop s) = api_simulate_stop s /\
  (running s = true ->
   api_simulate_start utc shipment_count interval_sec (api_simulate_stop s)
   = (Raise (HTTPException 400 "Simulation already running"),
      api_simulate_stop s) /\
   sim_stop_event (api_simulate_stop s) = true) /\
  (running s = false ->
   exists roster s',
     api_simulate_start utc shipment_count interval_sec (api_simulate_stop s)
     = (Ok roster, s') /\
     sim_stop_event s' = false /\ running s' = true /\
     List.length (threads s') = S (List.length (threads s))).
Proof.
  assert (Hrun : running (api_simulate_stop s) = running s) by reflexivity.
  split; [exact Hrun|]. split; [reflexivity|]. split; intro Hr.
  - split; [|reflexivity]. unfold api_simulate_start.
    rewrite Hrun, Hr. reflexivity.
  - unfold api_simulate_start. rewrite Hrun, Hr.
    do 2 eexists. split; [reflexivity|].
    cbn [sim_stop_event threads api_simulate_stop]. split; [reflexivity|]. split.
    + unfold running. cbn [sim_thread threads].
      rewrite nth_error_app2 by lia. rewrite Nat.sub_diag. reflexivity.
    + rewrite length_app. cbn [List.length]. lia.
Qed.

Lemma insert_shipment_NoDup (now sid batch : string)
    (table : list shipment_row) :
  NoDup (map shipment_id table) ->
  NoDup (map shipment_id (insert_shipment now sid batch table)).
Proof.
  intro Hnd.
  destruct (existsb (fun r => String.eqb (shipment_id r) sid) table) eqn:E.
  - rewrite (insert_shipment_present _ _ _ _ E). exact Hnd.
  - rewrite (insert_shipment_absent _ _ _ _ E), map_app. cbn [map shipment_id].
    apply NoDup_app; [exact Hnd | repeat constructor; intros [] |].
    intros x Hx [<-|[]]. apply existsb_shipment_id in Hx. congruence.
Qed.

Lemma insert_shipment_incl (now sid batch : string)
    (table : list shipment_row) (r : shipment_row) :
  In r table -> In r (insert_shipment now sid batch table).
Proof.
  intro Hr. unfold insert_shipment.
  destruct (existsb _ table); [exact Hr|]. apply in_or_app. left. exact Hr.
Qed.

Lemma register_roster_keeps (utc : nat -> string) (ps : list (nat * string))
    (table : list shipment_row) :
  NoDup (map shipment_id table) ->
  NoDup (map shipment_id
           (fold_left (fun table p =>
                         insert_shipment (utc (fst p)) (snd p)
                                         ("BATCH-SIM-" ++ last_char (snd p)) table)
                      ps table)) /\
  (forall r, In r table ->
     In r (fold_left (fun table p =>
                        insert_shipment (utc (fst p)) (snd p)
                                        ("BATCH-SIM-" ++ last_char (snd p)) table)
                     ps table)) /\
  ((forall p, In p ps ->
      existsb (fun r => String.eqb (shipment_id r) (snd p)) table = true) ->
   fold_left (fun table p =>
                insert_shipment (utc (fst p)) (snd p)
                                ("BATCH-SIM-" ++ last_char (snd p)) table)
             ps table = table).
Proof.
  revert table. induction ps as [|p ps IH]; intros table Hnd.
  - repeat split; [exact Hnd | intros r Hr; exact Hr].
  - cbn [fold_left].
    destruct (IH _ (insert_shipment_NoDup (utc (fst p)) (snd p)
                      ("BATCH-SIM-" ++ last_char (snd p)) table Hnd))
      as (H1 & H2 & H3).
    split; [exact H1|]. split.
    + intros r Hr. apply H2. apply insert_shipment_incl. exact Hr.
    + intro Hall.
      rewrite (insert_shipment_present _ _ _ _ (Hall p (or_introl eq_refl))).
      rewrite (insert_shipment_present _ _ _ _ (Hall p (or_introl eq_refl))) in H3.
      apply H3. intros q Hq. apply Hall. right. exact Hq.
Qed.

(** X14.  [api_simulate_start] never damages the shipments table: the
    shipment ids stay distinct and every row that was there is still
    there, unchanged, whether the start is accepted or rejected; the
    telemetry table and the ledger are not touched; and a start whose
    roster is already registered (a second run with the same count) adds
    no row. *)
Theorem api_simulate_start_keeps_tables (utc : nat -> string)
    (shipment_count : Z) (interval_sec : float) (s : system) :
  NoDup (map shipment_id (shipments s)) ->
  let s' := snd (api_simulate_start utc shipment_count interval_sec s) in
  NoDup (map shipment_id (shipments s')) /\
  (forall r, In r (shipments s) -> In r (shipments s')) /\
  telemetry s' = telemetry s /\
  ledger s' = ledger s /\
  ((forall n, 1 <= n <= shipment_count ->
      In ("SHIP-SIM-" ++ str_int n)%string (map shipment_id (shipments s))) ->
   shipments s' = shipments s).
Proof.
  intro Hnd. cbv zeta. unfold api_simulate_start.
  destruct (running s).
  - cbn [snd]. repeat split; try assumption. intros r Hr; exact Hr.
  - cbn [snd shipments telemetry ledger].
    match goal with |- context [fold_left ?f ?ps (shipments s)] =>
      destruct (register_roster_keeps utc ps (shipments s) Hnd) as (H1 & H2 & H3)
    end.
    split; [exact H1|]. split; [exact H2|]. split; [reflexivity|].
    split; [reflexivity|].
    intro Hall. apply H3. intros [k sid] Hin. cbn [snd].
    apply existsb_shipment_id.
    apply in_combine_r in Hin. apply in_map_iff in Hin as (n & <- & Hn).
    apply Hall. unfold py_range in Hn. apply in_map_iff in Hn as (j & <- & Hj).
    apply in_seq in Hj. lia.
Qed.

Lemma seed_rows_length (utc : nat -> string) (sid : string)
    (draws : nat -> uniform5) (base : nat) (js : list nat)
    (table : list telemetry_row) :
  List.length
    (fold_left (fun table j =>
                  insert_telemetry (utc (base + 1 + j)%nat) sid
                                   (seed_reading (draws j)) table)
               js table)
  = (List.length table + List.length js)%nat /\
  forall row,
    In row (fold_left (fun table j =>
                         insert_telemetry (utc (base + 1 + j)%nat) sid
                                          (seed_reading (draws j)) table)
                      js table) ->
    In row table \/ (t_tamper row = 0 /\ t_shipment_id row = sid).
Proof.
  revert table. induction js as [|j js IH]; intro table.
  - cbn. split; [lia | intros row Hr; left; exact Hr].
  - cbn [fold_left]. destruct (IH (insert_telemetry (utc (base + 1 + j)%nat) sid
                                     (seed_reading (draws j)) table)) as [Hl Hin].
    rewrite length_insert_telemetry in Hl. split.
    + rewrite Hl. cbn [List.length]. lia.
    + intros row Hr. destruct (Hin row Hr) as [Hold|Hnew]; [|right; exact Hnew].
      unfold insert_telemetry in Hold. apply in_app_or in Hold as [Hold|[<-|[]]].
      * left. exact Hold.
      * right. split; reflexivity.
Qed.

(** X15.  [startup] can run again on the state it left (a restart): a
    ledger that exists is kept as it is and a missing one is created; the
    three seed shipments SHIP-1001 .. SHIP-1003 are registered once and a
    repeated startup leaves the shipments table as it is; but each startup
    adds 18 telemetry rows, none of them flagged as tampered. *)
Theorem startup_on_restart (now : float) (utc : nat -> string)
    (draws : Z -> nat -> uniform5) (s : system) :
  let s' := startup now utc draws s in
  (forall chain, ledger s = Stored chain -> ledger s' = Stored chain) /\
  ledger s' <> Missing /\
  (forall i, 1 <= i <= 3 ->
     In ("SHIP-100" ++ str_int i)%string (map shipment_id (shipments s'))) /\
  (NoDup (map shipment_id (shipments s)) ->
   NoDup (map shipment_id (shipments s'))) /\
  (forall now' utc' draws',
     shipments (startup now' utc' draws' s') = shipments s') /\
  List.length (telemetry s') = (List.length (telemetry s) + 18)%nat /\
  (forall row, In row (telemetry s') ->
     In row (telemetry s) \/ t_tamper row = 0).
Proof.
  cbv zeta. unfold startup.
  change (py_range 1 4) with [1; 2; 3].
  cbn [fold_left seed_shipment fst snd ledger shipments telemetry].
  change (str_int 1) with "1"%string. change (str_int 2) with "2"%string.
  change (str_int 3) with "3"%string. cbn [String.append].
  set (t1 := insert_shipment (utc (7 * Z.to_nat (1 - 1))%nat) "SHIP-1001"
                             "BATCH-001" (shipments s)).
  set (t2 := insert_shipment (utc (7 * Z.to_nat (2 - 1))%nat) "SHIP-1002"
                             "BATCH-002" t1).
  set (t3 := insert_shipment (utc (7 * Z.to_nat (3 - 1))%nat) "SHIP-1003"
                             "BATCH-003" t2).
  assert (H3 : existsb (fun r => String.eqb (shipment_id r) "SHIP-1003") t3 = true)
    by apply insert_shipment_has.
  assert (H2 : existsb (fun r => String.eqb (shipment_id r) "SHIP-1002") t3 = true)
    by (apply insert_shipment_keeps, insert_shipment_has).
  assert (H1 : existsb (fun r => String.eqb (shipment_id r) "SHIP-1001") t3 = true)
    by (do 2 apply insert_shipment_keeps; apply insert_shipment_has).
  split; [|split; [|split; [|split; [|split; [|split]]]]].
  - intros chain ->. reflexivity.
  - destruct (ledger s); discriminate.
  - intros i Hi. apply existsb_shipment_id.
    assert (Hc : i = 1 \/ i = 2 \/ i = 3) by lia.
    destruct Hc as [-> | [-> | ->]]; [exact H1 | exact H2 | exact H3].
  - intro Hnd. do 3 apply insert_shipment_NoDup. exact Hnd.
  - intros now' utc' draws'.
    rewrite (insert_shipment_present _ "SHIP-1001" _ t3 H1).
    rewrite (insert_shipment_present _ "SHIP-1002" _ t3 H2).
    apply (insert_shipment_present _ "SHIP-1003" _ t3 H3).
  - rewrite (proj1 (seed_rows_length utc "SHIP-1003" (draws 3)
                      (7 * Z.to_nat (3 - 1)) (seq 0 6) _)).
    rewrite (proj1 (seed_rows_length utc "SHIP-1002" (draws 2)
                      (7 * Z.to_nat (2 - 1)) (seq 0 6) _)).
    rewrite (proj1 (seed_rows_length utc "SHIP-1001" (draws 1)
                      (7 * Z.to_nat (1 - 1)) (seq 0 6) _)).
    cbn [List.length seq]. lia.
  - intros row Hr.
    apply (proj2 (seed_rows_length utc "SHIP-1003" (draws 3)
                    (7 * Z.to_nat (3 - 1)) (seq 0 6) _)) in Hr.
    destruct Hr as [Hr | [Hnew _]]; [|right; exact Hnew].
    apply (proj2 (seed_rows_length utc "SHIP-1002" (draws 2)
                    (7 * Z.to_nat (2 - 1)) (seq 0 6) _)) in Hr.
    destruct Hr as [Hr | [Hnew _]]; [|right; exact Hnew].
    apply (proj2 (seed_rows_length utc "SHIP-1001" (draws 1)
                    (7 * Z.to_nat (1 - 1)) (seq 0 6) _)) in Hr.
    destruct Hr as [Hr | [Hnew _]]; [|right; exact Hnew].
    left. exact Hr.
Qed.

(** ** The thread and the requests *)

Lemma nth_error_replace_nth {A : Type} (h k : nat) (x : A) (l : list A) :
  nth_error (replace_nth h x l) k
  = if Nat.eqb k h then match nth_error l k with
                        | Some _ => Some x
                        | None => None
                        end
    else nth_error l k.
Proof.
  revert h k. induction l as [|y l IH]; intros h k.
  - destruct h; destruct k; cbn; try reflexivity.
    destruct (Nat.eqb k h); reflexivity.
  - destruct h as [|h]; destruct k as [|k]; cbn [replace_nth nth_error Nat.eqb];
      try reflexivity.
    apply IH.
Qed.

Lemma simulation_body_frame (d : draw) (sid : string) (s : system) :
  let s' := snd (simulation_body d sid s) in
  shipments s' = shipments s /\ threads s' = threads s /\
  sim_thread s' = sim_thread s /\ sim_stop_event s' = sim_stop_event s.
Proof.
  cbv zeta. unfold simulation_body. destruct (anomalous (sampled d)).
  - destruct (add_block _ _ _ _ _) as [res file]. repeat split.
  - repeat split.
Qed.

Lemma simulation_pass_frame (ids : list string) :
  forall (ds : list draw) (s : system),
    let s' := snd (simulation_pass ds ids s) in
    shipments s' = shipments s /\ threads s' = threads s /\
    sim_thread s' = sim_thread s /\ sim_stop_event s' = sim_stop_event s.
Proof.
  induction ids as [|sid ids IH]; intros ds s; cbv zeta.
  - destruct ds; cbn; repeat split.
  - destruct ds as [|d ds]; [cbn; repeat split|].
    cbn [simulation_pass].
    pose proof (simulation_body_frame d sid s) as Hb. cbv zeta in Hb.
    destruct (simulation_body d sid s) as [[u|e] s1]; cbn [snd] in *.
    + destruct (IH ds s1) as (H1 & H2 & H3 & H4).
      destruct Hb as (B1 & B2 & B3 & B4).
      repeat split; congruence.
    + exact Hb.
Qed.

Lemma end_thread_sole (h : nat) (s : system) :
  sole_generator s -> sole_generator (end_thread h s).
Proof.
  intros Hs k t Hk Ha. unfold end_thread in *. cbn [threads sim_thread] in *.
  destruct (nth_error (threads s) h) as [th|] eqn:Hh; [|exact (Hs k t Hk Ha)].
  rewrite nth_error_replace_nth in Hk.
  destruct (Nat.eqb k h) eqn:E; [|exact (Hs k t Hk Ha)].
  destruct (nth_error (threads s) k); [|discriminate].
  injection Hk as <-. discriminate.
Qed.

Lemma thread_turn_sole (h : nat) (draws : nat -> draw) (s : system) :
  sole_generator s -> sole_generator (thread_turn h draws s).
Proof.
  intro Hs. unfold thread_turn.
  destruct (nth_error (threads s) h) as [t|] eqn:Hh; [|exact Hs].
  destruct (negb (alive t)); [exact Hs|].
  destruct (sim_stop_event s); [apply end_thread_sole; exact Hs|].
  pose proof (simulation_pass_frame (thread_shipment_ids t)
                (map draws (seq 0 (List.length (thread_shipment_ids t)))) s) as Hf.
  cbv zeta in Hf.
  destruct (simulation_pass _ (thread_shipment_ids t) s) as [[u|e] s1];
    cbn [snd] in Hf; destruct Hf as (_ & Hth & Hst & _).
  - intros k t' Hk Ha. rewrite Hth in Hk. rewrite Hst. exact (Hs k t' Hk Ha).
  - apply end_thread_sole.
    intros k t' Hk Ha. rewrite Hth in Hk. rewrite Hst. exact (Hs k t' Hk Ha).
Qed.

Lemma api_simulate_start_sole (utc : nat -> string) (shipment_count : Z)
    (interval_sec : float) (s : system) :
  sole_generator s ->
  sole_generator (snd (api_simulate_start utc shipment_count interval_sec s)).
Proof.
  intro Hs. unfold api_simulate_start.
  destruct (running s) eqn:Hr; [exact Hs|].
  cbn [snd]. intros k t Hk Ha. cbn [threads sim_thread] in *.
  destruct (Nat.ltb_spec k (List.length (threads s))) as [Hlt|Hge].
  - rewrite nth_error_app1 in Hk by exact Hlt.
    pose proof (Hs k t Hk Ha) as Hsim.
    unfold running in Hr. rewrite Hsim, Hk in Hr. congruence.
  - rewrite nth_error_app2 in Hk by exact Hge.
    destruct (k - List.length (threads s))%nat as [|j] eqn:Ej.
    + f_equal. lia.
    + destruct j; discriminate.
Qed.

(** X16.  With requests and thread turns handled one at a time, starting
    from a process without threads, two simulation threads are never alive
    together: after any sequence of start requests, stop requests and
    thread turns, every thread that is alive is the one [sim_thread]
    points to. *)
Theorem one_simulation_thread (events : list event) (s : system) :
  threads s = [] ->
  let s' := handle_all events s in
  (forall h t, nth_error (threads s') h = Some t -> alive t = true ->
               sim_thread s' = Some h) /\
  (forall h1 h2 t1 t2,
     nth_error (threads s') h1 = Some t1 -> alive t1 = true ->
     nth_error (threads s') h2 = Some t2 -> alive t2 = true -> h1 = h2).
Proof.
  intro Hnil. cbv zeta.
  assert (Hs : sole_generator s).
  { intros h t Hh. rewrite Hnil in Hh. destruct h; discriminate. }
  clear Hnil.
  assert (Hall : sole_generator (handle_all events s)).
  { unfold handle_all. revert s Hs.
    induction events as [|e events IH]; intros s Hs; [exact Hs|].
    cbn [fold_left]. apply IH. destruct e as [utc n i| |h draws]; cbn [handle].
    - apply api_simulate_start_sole. exact Hs.
    - exact Hs.
    - apply thread_turn_sole. exact Hs. }
  split; [exact Hall|].
  intros h1 h2 t1 t2 H1 A1 H2 A2.
  pose proof (Hall h1 t1 H1 A1) as E1. pose proof (Hall h2 t2 H2 A2) as E2.
  congruence.
Qed.

(** X17.  A stop request takes effect at the thread's next turn: the
    thread finds the flag set and ends without sampling anything, so the
    ledger and both tables are as they were, the simulation no longer
    counts as running, and the next start request is accepted. *)
Theorem stop_ends_thread_at_next_turn (h : nat) (draws : nat -> draw)
    (utc : nat -> string) (shipment_count : Z) (interval_sec : float)
    (s : system) :
  sim_thread s = Some h -> running s = true ->
  let s1 := thread_turn h draws (api_simulate_stop s) in
  running s1 = false /\
  ledger s1 = ledger s /\ telemetry s1 = telemetry s /\
  shipments s1 = shipments s /\
  exists roster s2,
    api_simulate_start utc shipment_count interval_sec s1 = (Ok roster, s2) /\
    running s2 = true /\ sim_stop_event s2 = false.
Proof.
  intros Hsim Hr. cbv zeta. unfold running in Hr. rewrite Hsim in Hr.
  destruct (nth_error (threads s) h) as [t|] eqn:Hh; [|discriminate].
  unfold thread_turn. cbn [threads api_simulate_stop sim_stop_event].
  rewrite Hh, Hr. cbn [negb].
  assert (Hdead : running (end_thread h (api_simulate_stop s)) = false).
  { unfold running, end_thread. cbn [sim_thread threads api_simulate_stop].
    rewrite Hsim, Hh, nth_error_replace_nth, Nat.eqb_refl, Hh. reflexivity. }
  split; [exact Hdead|]. split; [reflexivity|]. split; [reflexivity|].
  split; [reflexivity|].
  unfold api_simulate_start. rewrite Hdead.
  do 2 eexists. split; [reflexivity|]. split; [|reflexivity].
  unfold running. cbn [sim_thread threads].
  rewrite nth_error_app2 by lia. rewrite Nat.sub_diag. reflexivity.
Qed.





End Properties.

(** * Evaluation with SHA-256 and Python's float printer *)

Section Evaluation.

Local Open Scope list_scope.
Local Existing Instance python_runtime.

Example sha256_abc :
  SHA256.hexdigest "abc"
  = "ba7816bf8f01cfea414140de5dae2223b00361a396177a9cb410ff61f20015ad".
Proof. vm_compute. reflexivity. Qed.

Example float_repr_samples :
  map PyFloat.repr [demo_t0; 35%float; 0.5%float; 1e22%float; 9007199254740992%float]
  = ["1762190000.5"; "35.0"; "0.5"; "1e+22"; "9007199254740992.0"]%string.
Proof. vm_compute. reflexivity. Qed.

Example init_ledger_demo : init_ledger demo_t0 Missing = Stored [demo_genesis].
Proof. vm_compute. reflexivity. Qed.

Example add_block_demo :
  add_block demo_t0 demo_t1 "REGISTER_BATCH" demo_payload Missing
  = (Ok demo_block, Stored [demo_genesis; demo_block]).
Proof. vm_compute. reflexivity. Qed.

(** The demo chain is one the program persists, and its registration block
    carries the hash Python computes. *)
Lemma persisted_hash_correct_witness :
  persisted (Stored [demo_genesis; demo_block]) /\
  In demo_block [demo_genesis; demo_block] /\
  hash demo_block = recompute_hash demo_block /\
  hash demo_block
  = sha256_hexdigest (dumps_sorted (data demo_block)
                      ++ float_repr (timestamp demo_block)
                      ++ prev_hash demo_block) /\
  lower_hex_digest (hash demo_block) = true.
Proof.
  assert (Hp : persisted (Stored [demo_genesis; demo_block])).
  { pose proof (persisted_append demo_t0 demo_t1 "REGISTER_BATCH" demo_payload
                  Missing persisted_fresh) as H.
    rewrite add_block_demo in H. exact H. }
  assert (Hin : In demo_block [demo_genesis; demo_block]) by (right; left; reflexivity).
  destruct (persisted_hash_correct _ _ demo_block Hp eq_refl Hin)
    as (H1 & _ & H3 & H4).
  split; [exact Hp|]. split; [exact Hin|]. split; [exact H1|]. split.
  - apply H3. discriminate.
  - apply H4. exact sha256_hexdigest_shape.
Defined.

Lemma add_block_extends_chain_witness :
  well_formed [demo_genesis] = true /\
  exists block,
    add_block demo_t0 demo_t1 "REGISTER_BATCH" demo_payload (Stored [demo_genesis])
    = (Ok block, Stored [demo_genesis; block]) /\
    index block = 1 /\ prev_hash block = hash demo_genesis /\
    well_formed [demo_genesis; block] = true.
Proof.
  split; [reflexivity|].
  destruct (add_block_extends_chain demo_t0 demo_t1 "REGISTER_BATCH" demo_payload
              [demo_genesis] eq_refl)
    as (last & block & Hl & Ha & Hi & Hp & _ & _ & _ & _ & Hwf).
  injection Hl as <-. exists block. repeat split; assumption.
Defined.

Lemma add_block_returns_tail_witness :
  exists block chain,
    add_block demo_t0 demo_t1 "REGISTER_BATCH" demo_payload Missing
    = (Ok block, Stored chain) /\
    data block = JDict [("event", JStr "REGISTER_BATCH"); ("payload", demo_payload)] /\
    last_block chain = Some block.
Proof.
  destruct (add_block_returns_tail demo_t0 demo_t1 "REGISTER_BATCH" demo_payload
              Missing) as [Hret Htotal].
  destruct (Htotal (or_introl eq_refl)) as (block & file' & Ha).
  destruct (Hret block file' Ha) as (Hd & chain & -> & Hl).
  exists block, chain. repeat split; assumption.
Defined.

(** C3, as stated, fails: two calls whose steps alternate both return a
    block with index 1, and the chain is extended by one block, not two;
    the first call's block is lost. *)
Lemma interleaved_appends_lose_a_block :
  run demo_interleaving
      (map (fun c => Called (fst c) (snd c)) demo_calls, Stored [demo_genesis])
  = ([Returned demo_block; Returned demo_alert],
     Stored [demo_genesis; demo_alert]) /\
  index demo_block = index demo_alert /\
  List.length [demo_genesis; demo_alert] <> (List.length [demo_genesis] + 2)%nat.
Proof.
  split; [vm_compute; reflexivity|]. split; [reflexivity|]. discriminate.
Qed.

Lemma serial_appends_extend_chain_witness :
  well_formed [demo_genesis] = true /\
  exists blocks,
    run (serial 0 [(demo_t0, demo_t1); (demo_t0, demo_t2)])
        (map (fun c => Called (fst c) (snd c)) demo_calls, Stored [demo_genesis])
    = (map Returned blocks, Stored ([demo_genesis] ++ blocks)) /\
    List.length blocks = 2%nat /\
    NoDup (map index ([demo_genesis] ++ blocks)).
Proof.
  split; [reflexivity|].
  destruct (serial_appends_extend_chain demo_calls
              [(demo_t0, demo_t1); (demo_t0, demo_t2)] [demo_genesis]
              eq_refl eq_refl)
    as (blocks & Hrun & Hlen & _ & _ & Hnd).
  exists blocks. repeat split; assumption.
Defined.

(** C4, as stated, fails: when the disk takes the 265 bytes that overwrite
    the old text and then refuses to let the file grow, the call raises
    and the file is left torn: it ends after the comma that replaced the
    closing bracket, and a reader that got the genesis block before now
    gets a decoding error. *)
Lemma failed_write_tears_ledger :
  String.length (dump_chain [demo_genesis]) = 265%nat /\
  exists text,
    add_block_on (WriteFails 265) demo_t0 demo_t1 "REGISTER_BATCH" demo_payload
                 (Stored [demo_genesis])
    = (Raise OSError, Torn text) /\
    text <> dump_chain [demo_genesis] /\
    text = (take 263 (dump_chain [demo_genesis]) ++ "," ++ newline)%string /\
    api_ledger 50 (Stored [demo_genesis]) = Ok [demo_genesis] /\
    api_ledger 50 (Torn text) = Raise JSONDecodeError.
Proof.
  split; [vm_compute; reflexivity|].
  eexists. split; [vm_compute; reflexivity|].
  split; [vm_compute; discriminate|].
  split; [vm_compute; reflexivity|].
  split; reflexivity.
Qed.

Lemma add_block_on_failing_disk_witness :
  WriteFails 265 <> Healthy /\ [demo_genesis] <> [] /\
  exists e file',
    add_block_on (WriteFails 265) demo_t0 demo_t1 "REGISTER_BATCH" demo_payload
                 (Stored [demo_genesis])
    = (Raise e, file').
Proof.
  assert (H1 : WriteFails 265 <> Healthy) by discriminate.
  assert (H2 : [demo_genesis] <> []) by discriminate.
  split; [exact H1|]. split; [exact H2|].
  destruct (add_block_on_failing_disk (WriteFails 265) demo_t0 demo_t1
              "REGISTER_BATCH" demo_payload [demo_genesis] H1 H2)
    as (e & file' & Ha & _).
  exists e, file'. exact Ha.
Defined.

(** C6, as stated, fails: without a ledger file [api_ledger(50)] answers
    with an empty chain, not with the genesis block. *)
Lemma api_ledger_missing_is_empty :
  api_ledger 50 Missing = Ok [] /\
  ~ exists g, api_ledger 50 Missing = Ok [g].
Proof.
  split; [reflexivity|]. intros [g H]. discriminate.
Qed.

(** The scenarios of the specification: 35 degrees raises one ALERT block
    for shipment S1, 20 degrees leaves the ledger alone. *)
Lemma simulation_body_alerts_witness :
  anomalous (sampled demo_hot) = true /\
  anomalous (sampled demo_mild) = false /\
  ledger (snd (simulation_body demo_hot "S1" demo_system))
  = Stored [demo_genesis; demo_alert] /\
  ledger (snd (simulation_body demo_mild "S1" demo_system))
  = Stored [demo_genesis].
Proof.
  assert (Hhot : anomalous (sampled demo_hot) = true) by reflexivity.
  assert (Hmild : anomalous (sampled demo_mild) = false) by reflexivity.
  destruct (simulation_body_alerts demo_hot "S1" demo_system) as (_ & Ha & _).
  destruct (simulation_body_alerts demo_mild "S1" demo_system) as (_ & _ & Hn).
  destruct (Ha Hhot) as [Hone _]. destruct (Hn Hmild) as [Hsame _].
  split; [exact Hhot|]. split; [exact Hmild|]. split.
  - rewrite Hone. vm_compute. reflexivity.
  - rewrite Hsame. reflexivity.
Defined.

Lemma api_simulate_start_guard_witness :
  running demo_system = false /\
  exists s',
    api_simulate_start demo_utc 3 2 demo_system
    = (Ok ["SHIP-SIM-1"; "SHIP-SIM-2"; "SHIP-SIM-3"]%string, s') /\
    running s' = true /\
    api_simulate_start demo_utc 3 2 s'
    = (Raise (HTTPException 400 "Simulation already running"), s').
Proof.
  split; [reflexivity|].
  destruct (api_simulate_start_guard demo_utc 3 2 demo_system) as [_ Hidle].
  destruct (Hidle eq_refl) as (roster & s' & Hs & _ & _ & _ & _ & _ & Hrun & _).
  exists s'. split; [|split].
  - pose proof Hs as Hv. vm_compute in Hv. injection Hv as Hroster _.
    rewrite Hs, <- Hroster. reflexivity.
  - exact Hrun.
  - destruct (api_simulate_start_guard demo_utc 3 2 s') as [Hbusy _].
    exact (Hbusy Hrun).
Defined.

Lemma demo_persisted : persisted (Stored [demo_genesis; demo_block]).
Proof.
  pose proof (persisted_append demo_t0 demo_t1 "REGISTER_BATCH" demo_payload
                Missing persisted_fresh) as H.
  rewrite add_block_demo in H. exact H.
Qed.

Lemma persisted_chain_shape_witness :
  persisted (Stored [demo_genesis; demo_block]) /\
  well_formed [demo_genesis; demo_block] = true /\
  exists g rest, [demo_genesis; demo_block] = g :: rest /\ index g = 0.
Proof.
  split; [exact demo_persisted|].
  destruct (persisted_chain_shape _ _ demo_persisted eq_refl)
    as (Hwf & g & rest & Hc & Hi & _).
  split; [exact Hwf|]. exists g, rest. split; assumption.
Defined.

Lemma ledger_run_append_only_witness :
  [demo_genesis] <> [] /\
  exists suffix,
    ledger_run demo_ledger_calls (Stored [demo_genesis])
    = Stored ([demo_genesis] ++ suffix) /\
    List.length suffix = 2%nat.
Proof.
  assert (Hne : [demo_genesis] <> []) by discriminate.
  split; [exact Hne|].
  destruct (ledger_run_append_only demo_ledger_calls [demo_genesis] Hne)
    as (suffix & Hrun & Hlen).
  exists suffix. split; [exact Hrun | exact Hlen].
Defined.

Lemma api_ledger_positive_limit_witness :
  0 < 1 /\
  exists window,
    api_ledger 1 (Stored [demo_genesis; demo_block]) = Ok window /\
    Z.of_nat (List.length window) = 1.
Proof.
  assert (H : 0 < 1) by lia. split; [exact H|].
  destruct (api_ledger_positive_limit 1 [demo_genesis; demo_block] H)
    as (window & Ha & Hl & _).
  exists window. split; [exact Ha | exact Hl].
Defined.

Lemma register_batch_then_read_witness :
  register_batch demo_t0 demo_t1 "BATCH-001" "Acme" Missing
  = (Ok demo_block, Stored [demo_genesis; demo_block]) /\
  api_ledger 1 (Stored [demo_genesis; demo_block]) = Ok [demo_block].
Proof.
  assert (H : register_batch demo_t0 demo_t1 "BATCH-001" "Acme" Missing
              = (Ok demo_block, Stored [demo_genesis; demo_block]))
    by exact add_block_demo.
  split; [exact H|].
  destruct (register_batch_then_read _ _ _ _ _ _ _ H) as (_ & Hread & _).
  exact Hread.
Defined.

Lemma hashed_text_ignores_key_order_witness :
  Permutation [("batch_id", JStr "BATCH-001"); ("manufacturer", JStr "Acme")]
              [("manufacturer", JStr "Acme"); ("batch_id", JStr "BATCH-001")] /\
  NoDup ["batch_id"; "manufacturer"]%string /\
  dumps_sorted (JDict [("manufacturer", JStr "Acme"); ("batch_id", JStr "BATCH-001")])
  = dumps_sorted demo_payload /\
  hash (new_block demo_t1 "REGISTER_BATCH"
          (JDict [("manufacturer", JStr "Acme"); ("batch_id", JStr "BATCH-001")])
          demo_genesis)
  = hash demo_block.
Proof.
  assert (Hp : Permutation
                 [("batch_id", JStr "BATCH-001"); ("manufacturer", JStr "Acme")]
                 [("manufacturer", JStr "Acme"); ("batch_id", JStr "BATCH-001")])
    by apply perm_swap.
  assert (Hnd : NoDup ["batch_id"; "manufacturer"]%string).
  { constructor; [intros [H|[]]; discriminate|].
    constructor; [intros []|constructor]. }
  destruct (hashed_text_ignores_key_order _ _ demo_t1 "REGISTER_BATCH"
              demo_genesis Hp Hnd) as [Htext Hhash].
  split; [exact Hp|]. split; [exact Hnd|]. split.
  - symmetry. exact Htext.
  - rewrite <- Hhash. vm_compute. reflexivity.
Defined.

Lemma insert_shipment_first_wins_witness :
  NoDup (map shipment_id []) /\
  insert_shipment "2025-11-04T08:00:00" "SHIP-1001" "BATCH-999"
    (insert_shipment "2025-11-03T17:13:20" "SHIP-1001" "BATCH-001" [])
  = [ {| shipment_id := "SHIP-1001"; batch_id := "BATCH-001";
         status := "In Transit"; created_at := "2025-11-03T17:13:20" |} ].
Proof.
  assert (Hnd : NoDup (map shipment_id [])) by constructor.
  split; [exact Hnd|].
  destruct (insert_shipment_first_wins "2025-11-03T17:13:20" "SHIP-1001"
              "BATCH-001" [] Hnd) as (_ & _ & Hsame & _).
  rewrite Hsame. reflexivity.
Defined.


Lemma get_telemetry_latest_window_witness :
  option_map (@List.length _) (get_telemetry_latest "S1" 5 demo_telemetry) = Some 2%nat /\
  option_map (@List.length _) (get_telemetry_latest "S1" 0 demo_telemetry) = Some 0%nat /\
  option_map (@List.length _) (get_telemetry_latest "S1" (-1) demo_telemetry) = Some 2%nat /\
  get_telemetry_latest "S1" (2 ^ 63) demo_telemetry = None.
Proof.
  destruct (get_telemetry_latest_window "S1" 5 demo_telemetry) as (H5 & _ & _).
  destruct (get_telemetry_latest_window "S1" 0 demo_telemetry) as (H0 & _ & _).
  destruct (get_telemetry_latest_window "S1" (-1) demo_telemetry) as (_ & Hneg & _).
  destruct (get_telemetry_latest_window "S1" (2 ^ 63) demo_telemetry) as (_ & _ & Hbig).
  rewrite H5, H0, Hneg, Hbig by lia. repeat split.
Defined.

Lemma telemetry_isolated_witness :
  "S2"%string <> "S1"%string /\
  get_telemetry_latest "S1" 5
    (insert_telemetry "2025-11-03T17:13:28.250000" "S2" (sampled demo_hot)
                      demo_telemetry)
  = get_telemetry_latest "S1" 5 demo_telemetry.
Proof.
  assert (H : "S2"%string <> "S1"%string) by discriminate.
  split; [exact H|].
  exact (telemetry_isolated _ "S1" "S2" (sampled demo_hot) 5 demo_telemetry H).
Defined.

Lemma simulation_pass_appends_alerts_witness :
  well_formed [demo_genesis] = true /\
  exists alerts s',
    simulation_pass [demo_hot; demo_mild] ["S1"; "S2"]%string demo_system
    = (Ok tt, s') /\
    ledger s' = Stored ([demo_genesis] ++ alerts) /\
    List.length alerts = 1%nat /\
    List.length (telemetry s') = 2%nat.
Proof.
  split; [reflexivity|].
  destruct (simulation_pass_appends_alerts ["S1"; "S2"]%string
              [demo_hot; demo_mild] demo_system [demo_genesis]
              eq_refl eq_refl eq_refl)
    as (alerts & s' & Hp & Hl & Hn & _ & _ & Ht & _).
  exists alerts, s'. repeat split; assumption.
Defined.

Lemma simulation_pass_torn_ledger_witness :
  ledger demo_torn_system = Torn "[{" /\
  (exists s',
     simulation_pass [demo_mild; demo_mild] ["S1"; "S2"]%string demo_torn_system
     = (Ok tt, s')) /\
  exists s',
    simulation_pass [demo_mild; demo_hot; demo_mild] ["S1"; "S2"; "S3"]%string
                    demo_torn_system
    = (Raise JSONDecodeError, s') /\
    List.length (telemetry s') = 2%nat.
Proof.
  split; [reflexivity|]. split.
  - destruct (simulation_pass_torn_ledger ["S1"; "S2"]%string
                [demo_mild; demo_mild] demo_torn_system "[{" eq_refl eq_refl)
      as [Hok _].
    destruct (Hok eq_refl) as (s' & Hp & _). exists s'. exact Hp.
  - destruct (simulation_pass_torn_ledger ["S1"; "S2"; "S3"]%string
                [demo_mild; demo_hot; demo_mild] demo_torn_system "[{"
                eq_refl eq_refl) as [_ Hbad].
    destruct (Hbad eq_refl) as (s' & normal & d & rest & Hp & _ & _ & _ & _ & Ht).
    exists s'. split; [exact Hp|].
    pose proof Hp as Hv. vm_compute in Hv. injection Hv as <-. reflexivity.
Defined.

Lemma stop_then_start_witness :
  exists s',
    api_simulate_start demo_utc 3 2 demo_system
    = (Ok ["SHIP-SIM-1"; "SHIP-SIM-2"; "SHIP-SIM-3"]%string, s') /\
    running s' = true /\
    api_simulate_start demo_utc 3 2 (api_simulate_stop s')
    = (Raise (HTTPException 400 "Simulation already running"),
       api_simulate_stop s').
Proof.
  eexists. split; [reflexivity|]. split; [reflexivity|].
  match goal with |- api_simulate_start _ _ _ (api_simulate_stop ?s) = _ =>
    destruct (stop_then_start demo_utc 3 2 s) as (_ & _ & Hbusy & _)
  end.
  destruct (Hbusy eq_refl) as [Hrej _]. exact Hrej.
Defined.

Lemma api_simulate_start_keeps_tables_witness :
  NoDup (map shipment_id (shipments demo_system)) /\
  NoDup (map shipment_id
           (shipments (snd (api_simulate_start demo_utc 3 2 demo_system)))) /\
  List.length (shipments (snd (api_simulate_start demo_utc 3 2 demo_system)))
  = 3%nat.
Proof.
  assert (Hnd : NoDup (map shipment_id (shipments demo_system))) by constructor.
  split; [exact Hnd|].
  destruct (api_simulate_start_keeps_tables demo_utc 3 2 demo_system Hnd)
    as (H1 & _).
  split; [exact H1 | reflexivity].
Defined.

Lemma one_simulation_thread_witness :
  threads demo_system = [] /\
  map alive (threads (handle_all demo_events demo_system)) = [false; true] /\
  sim_thread (handle_all demo_events demo_system) = Some 1%nat.
Proof.
  assert (Hnil : threads demo_system = []) by reflexivity.
  split; [exact Hnil|]. split; [vm_compute; reflexivity|].
  destruct (one_simulation_thread demo_events demo_system Hnil) as [Hsole _].
  apply (Hsole 1%nat {| thread_shipment_ids := ["SHIP-SIM-1"; "SHIP-SIM-2"]%string;
                        thread_interval := 2; alive := true |});
    vm_compute; reflexivity.
Defined.

Lemma stop_ends_thread_at_next_turn_witness :
  let s := snd (api_simulate_start demo_utc 3 2 demo_system) in
  sim_thread s = Some 0%nat /\ running s = true /\
  running (thread_turn 0 demo_draws (api_simulate_stop s)) = false.
Proof.
  cbv zeta.
  assert (H1 : sim_thread (snd (api_simulate_start demo_utc 3 2 demo_system))
               = Some 0%nat) by reflexivity.
  assert (H2 : running (snd (api_simulate_start demo_utc 3 2 demo_system)) = true)
    by reflexivity.
  split; [exact H1|]. split; [exact H2|].
  destruct (stop_ends_thread_at_next_turn 0 demo_draws demo_utc 3 2 _ H1 H2)
    as [Hdead _].
  exact Hdead.
Defined.


End Evaluation.
